(** * QieLend: a shallow embedding of the lending contracts

    The Solidity sources [contracts/QieLendNative.sol] (contract
    [QieLendNative]) and the prior ERC20 version (contract [QieLend]) are
    embedded as pure functions over an explicit storage record.

    - [uint256] values are binary naturals [N]; Solidity 0.8 checked
      arithmetic is written out: every [+], [-], [*] and [/] of the source is
      one of [add], [sub], [mul], [div] below and panics instead of wrapping.
    - A transaction either returns the new storage ([Ok]) or reverts with an
      [error]; a revert leaves the storage as it was before the call.
    - [mapping(address => UserAccount)] is a [gmap] read with the all-zero
      account as default, as Solidity mappings do.
    - The storage record also carries the two facts about the world outside
      the contract that its code depends on: its own balance, and which
      accounts refuse a payment sent to them.
    - Events are not part of the storage and are left out. *)

From Stdlib Require Import NArith Lia Bool List String.
From stdpp Require Import base option gmap.
Import ListNotations.

Local Open Scope N_scope.

(** ** Errors and the result monad *)

Inductive error : Type :=
| InsufficientBalance
| InvalidAmount
| CollateralDisabled
| ExceedsBorrowCapacity
| InsufficientLiquidity
| RevertEmpty                      (* [revert()] without data *)
| RequireFailed (reason : string)  (* [require(c, reason)] failed *)
| Panic (code : N).                (* compiler-inserted checks *)

Definition PANIC_ARITHMETIC : N := 17.   (* 0x11: overflow or underflow *)
Definition PANIC_DIVISION : N := 18.     (* 0x12: division by zero *)

Inductive result (A : Type) : Type :=
| Ok (a : A)
| Err (e : error).

Arguments Ok {A} a.
Arguments Err {A} e.

Definition bind {A B : Type} (m : result A) (f : A -> result B) : result B :=
  match m with
  | Ok a => f a
  | Err e => Err e
  end.

Notation "'let*' x ':=' m 'in' k" := (bind m (fun x => k))
  (at level 10, x name, m at level 100, k at level 200).

Definition require (c : bool) (e : error) : result unit :=
  if c then Ok tt else Err e.

Definition isOk {A : Type} (r : result A) : bool :=
  match r with Ok _ => true | Err _ => false end.

(** ** Checked [uint256] arithmetic *)

Definition MAX_UINT256 : N := 2 ^ 256 - 1.

Definition add (a b : N) : result N :=
  if a + b <=? MAX_UINT256 then Ok (a + b) else Err (Panic PANIC_ARITHMETIC).

Definition sub (a b : N) : result N :=
  if b <=? a then Ok (a - b) else Err (Panic PANIC_ARITHMETIC).

Definition mul (a b : N) : result N :=
  if a * b <=? MAX_UINT256 then Ok (a * b) else Err (Panic PANIC_ARITHMETIC).

Definition div (a b : N) : result N :=
  if b =? 0 then Err (Panic PANIC_DIVISION) else Ok (a / b).

(** The literal [1e18] of the source. *)
Definition ONE_E18 : N := 1000000000000000000.

(** ** Storage *)

Definition address : Type := N.

Module UserAccount.
Record t : Type := mk {
  supplyBalance : N;      (* scaled by exchangeRate *)
  borrowBalance : N;      (* scaled by borrowIndex *)
  supplyIndex : N;
  borrowIndex : N;
  collateralEnabled : bool;
  accruedRewards : N;
  lastRewardUpdate : N
}.

(** The value a mapping returns for a key never written. *)
Definition zero : t := mk 0 0 0 0 false 0 0.
End UserAccount.

Record State : Type := mkState {
  totalSupply : N;
  totalBorrow : N;
  totalReserves : N;
  lastUpdateTime : N;
  exchangeRate : N;
  supplyIndex : N;
  borrowIndex : N;
  accounts : gmap N UserAccount.t;
  balance : N;                      (* address(this).balance *)
  refusing : gset address           (* accounts that revert on a plain payment *)
}.

(** [accounts[user]] *)
Definition account (s : State) (user : address) : UserAccount.t :=
  default UserAccount.zero (accounts s !! user).

Definition set_account (user : address) (u : UserAccount.t) (s : State) : State :=
  mkState (totalSupply s) (totalBorrow s) (totalReserves s) (lastUpdateTime s)
          (exchangeRate s) (supplyIndex s) (borrowIndex s)
          (<[user := u]> (accounts s)) (balance s) (refusing s).

Definition set_balance (b : N) (s : State) : State :=
  mkState (totalSupply s) (totalBorrow s) (totalReserves s) (lastUpdateTime s)
          (exchangeRate s) (supplyIndex s) (borrowIndex s) (accounts s) b (refusing s).

Definition set_totalSupply (x : N) (s : State) : State :=
  mkState x (totalBorrow s) (totalReserves s) (lastUpdateTime s)
          (exchangeRate s) (supplyIndex s) (borrowIndex s) (accounts s) (balance s)
          (refusing s).

Definition set_totalBorrow (x : N) (s : State) : State :=
  mkState (totalSupply s) x (totalReserves s) (lastUpdateTime s)
          (exchangeRate s) (supplyIndex s) (borrowIndex s) (accounts s) (balance s)
          (refusing s).

Definition set_totalReserves (x : N) (s : State) : State :=
  mkState (totalSupply s) (totalBorrow s) x (lastUpdateTime s)
          (exchangeRate s) (supplyIndex s) (borrowIndex s) (accounts s) (balance s)
          (refusing s).

(** The world outside the contract changes which accounts refuse a payment. *)
Definition set_refusing (R : gset address) (s : State) : State :=
  mkState (totalSupply s) (totalBorrow s) (totalReserves s) (lastUpdateTime s)
          (exchangeRate s) (supplyIndex s) (borrowIndex s) (accounts s) (balance s) R.

Definition set_lastUpdateTime (x : N) (s : State) : State :=
  mkState (totalSupply s) (totalBorrow s) (totalReserves s) x
          (exchangeRate s) (supplyIndex s) (borrowIndex s) (accounts s) (balance s)
          (refusing s).

(** Storage right after deployment of [QieLendNative]: the three indices are
    initialised to [1e18], everything else is zero. (No account refuses a
    payment here; [reachable] lets the world change that at any time.) *)
Definition init : State :=
  mkState 0 0 0 0 ONE_E18 ONE_E18 ONE_E18 ∅ 0 ∅.

(** The value received with a payable call is credited before the body runs. *)
Definition receive_value (value : N) (s : State) : State :=
  set_balance (balance s + value) s.

(** [(bool ok, ) = payable(to).call{value: v}(empty); require(ok, reason)]:
    the call fails when the contract holds less than [v], and when the
    recipient refuses the payment (a contract without a payable [receive] or
    [fallback], or one that reverts there). Every function body makes this
    call as its last statement, after all its writes. *)
Definition send (to : address) (v : N) (reason : string) (s : State) : result State :=
  if (v <=? balance s) && negb (bool_decide (to ∈ refusing s))
  then Ok (set_balance (balance s - v) s)
  else Err (RequireFailed reason).

(** [require(qieToken.transfer(to, v), reason)] of the ERC20 version, for a
    token that moves [v] out of the contract's token balance (kept in
    [balance]) and fails when the contract holds less. *)
Definition transfer (v : N) (reason : string) (s : State) : result State :=
  if v <=? balance s then Ok (set_balance (balance s - v) s)
  else Err (RequireFailed reason).

(** ** Protocol constants

    The two contracts share the code of their internal functions and differ
    in the constants. *)

Record Constants : Type := mkConstants {
  COLLATERAL_FACTOR : N;
  LIQUIDATION_THRESHOLD : N;
  LIQUIDATION_BONUS : N;
  RESERVE_FACTOR : N;
  SECONDS_PER_YEAR : N;
  BASE_RATE : N;
  KINK_UTILIZATION : N;
  MULTIPLIER : N;
  JUMP_MULTIPLIER : N
}.

Definition DAYS_365 : N := 365 * 24 * 60 * 60.

(** ** Internal functions shared by both contracts *)

Section Internal.
Variable K : Constants.

Definition _calculateBorrowRate (utilization : N) : result N :=
  if utilization <=? KINK_UTILIZATION K then
    let* m := mul utilization (MULTIPLIER K) in
    let* q := div m (KINK_UTILIZATION K) in
    add (BASE_RATE K) q
  else
    let* excessUtilization := sub utilization (KINK_UTILIZATION K) in
    let* baseRate := add (BASE_RATE K) (MULTIPLIER K) in
    let* m := mul excessUtilization (JUMP_MULTIPLIER K) in
    let* d := sub 10000 (KINK_UTILIZATION K) in
    let* q := div m d in
    add baseRate q.

Definition _calculateHealthFactor (supplyBalance borrowBalance : N) : result N :=
  if borrowBalance =? 0 then Ok MAX_UINT256
  else
    let* m := mul supplyBalance (LIQUIDATION_THRESHOLD K) in
    let* collateralValue := div m 10000 in
    let* n := mul collateralValue ONE_E18 in
    div n borrowBalance.

Definition _accrueInterest (now : N) (s : State) : result State :=
  let* timeElapsed := sub now (lastUpdateTime s) in
  if (timeElapsed =? 0) || (totalSupply s =? 0) then
    Ok (set_lastUpdateTime now s)
  else
    let* utilization :=
      if 0 <? totalBorrow s then
        let* m := mul (totalBorrow s) ONE_E18 in div m (totalSupply s)
      else Ok 0 in
    let* u := mul utilization 10000 in
    let* ubp := div u ONE_E18 in
    let* borrowRate := _calculateBorrowRate ubp in
    let* n := mul borrowRate ONE_E18 in
    let* d := mul 10000 (SECONDS_PER_YEAR K) in
    let* borrowRatePerSecond := div n d in
    let* p := mul (totalBorrow s) borrowRatePerSecond in
    let* p' := mul p timeElapsed in
    let* interestAccrued := div p' ONE_E18 in
    let* r := mul interestAccrued (RESERVE_FACTOR K) in
    let* reserveAmount := div r 10000 in
    let* supplyInterest := sub interestAccrued reserveAmount in
    let* exchangeRate' :=
      if 0 <? totalSupply s then
        let* m := mul supplyInterest ONE_E18 in
        let* q := div m (totalSupply s) in
        add (exchangeRate s) q
      else Ok (exchangeRate s) in
    let* borrowIndex' :=
      if 0 <? totalBorrow s then
        let* m := mul interestAccrued ONE_E18 in
        let* q := div m (totalBorrow s) in
        add (borrowIndex s) q
      else Ok (borrowIndex s) in
    let* totalReserves' := add (totalReserves s) reserveAmount in
    let* totalBorrow' := add (totalBorrow s) interestAccrued in
    let* totalSupply' := add (totalSupply s) supplyInterest in
    Ok (mkState totalSupply' totalBorrow' totalReserves' now
                exchangeRate' exchangeRate' borrowIndex'
                (accounts s) (balance s) (refusing s)).

Definition _updateUserRewards (now : N) (user : address) (s : State) : result State :=
  let acc := account s user in
  if UserAccount.supplyBalance acc =? 0 then
    Ok (set_account user
          (UserAccount.mk (UserAccount.supplyBalance acc) (UserAccount.borrowBalance acc)
             (UserAccount.supplyIndex acc) (UserAccount.borrowIndex acc)
             (UserAccount.collateralEnabled acc) (UserAccount.accruedRewards acc) now) s)
  else
    let* timeElapsed := sub now (UserAccount.lastRewardUpdate acc) in
    if timeElapsed =? 0 then Ok s
    else
      let* m := mul (UserAccount.supplyBalance acc) (exchangeRate s) in
      let* userSupplyBalance := div m ONE_E18 in
      let* utilization :=
        if 0 <? totalBorrow s then
          let* m := mul (totalBorrow s) 10000 in div m (totalSupply s)
        else Ok 0 in
      let* borrowRate := _calculateBorrowRate utilization in
      let* f := sub 10000 (RESERVE_FACTOR K) in
      let* n := mul borrowRate f in
      let* supplyRate := div n 10000 in
      let* n' := mul supplyRate ONE_E18 in
      let* d := mul 10000 (SECONDS_PER_YEAR K) in
      let* supplyRatePerSecond := div n' d in
      let* p := mul userSupplyBalance supplyRatePerSecond in
      let* rewardsPerSecond := div p ONE_E18 in
      let* newRewards := mul rewardsPerSecond timeElapsed in
      let* accrued := add (UserAccount.accruedRewards acc) newRewards in
      Ok (set_account user
            (UserAccount.mk (UserAccount.supplyBalance acc) (UserAccount.borrowBalance acc)
               (UserAccount.supplyIndex acc) (UserAccount.borrowIndex acc)
               (UserAccount.collateralEnabled acc) accrued now) s).

Definition getSupplyAPY (s : State) : result N :=
  if totalSupply s =? 0 then Ok (BASE_RATE K)
  else
    let* m := mul (totalBorrow s) 10000 in
    let* utilization := div m (totalSupply s) in
    let* borrowRate := _calculateBorrowRate utilization in
    let* f := sub 10000 (RESERVE_FACTOR K) in
    let* n := mul borrowRate f in
    div n 10000.

Definition getBorrowAPY (s : State) : result N :=
  if totalSupply s =? 0 then Ok (BASE_RATE K)
  else
    let* m := mul (totalBorrow s) 10000 in
    let* utilization := div m (totalSupply s) in
    _calculateBorrowRate utilization.

Definition getAccruedRewards (now : N) (user : address) (s : State) : result N :=
  let acc := account s user in
  if UserAccount.supplyBalance acc =? 0 then Ok (UserAccount.accruedRewards acc)
  else
    let* timeElapsed := sub now (UserAccount.lastRewardUpdate acc) in
    if timeElapsed =? 0 then Ok (UserAccount.accruedRewards acc)
    else
      let* m := mul (UserAccount.supplyBalance acc) (exchangeRate s) in
      let* userSupplyBalance := div m ONE_E18 in
      let* supplyAPY := getSupplyAPY s in
      let* n := mul supplyAPY ONE_E18 in
      let* supplyRate := div n 10000 in
      let* p := mul userSupplyBalance supplyRate in
      let* rewardsPerSecond := div p (SECONDS_PER_YEAR K) in
      let* newRewards := mul rewardsPerSecond timeElapsed in
      add (UserAccount.accruedRewards acc) newRewards.

Definition getSupplyBalance (user : address) (s : State) : result N :=
  let* m := mul (UserAccount.supplyBalance (account s user)) (exchangeRate s) in
  div m ONE_E18.
End Internal.

(** ** Contract [QieLendNative] *)

Module QieLendNative.

Definition K : Constants :=
  mkConstants 7000 8000 5 4000 DAYS_365 200 8000 800 2000.

(** [borrowIdx = account.borrowIndex == 0 ? borrowIndex : account.borrowIndex] *)
Definition borrowIdx (acc : UserAccount.t) (s : State) : N :=
  if UserAccount.borrowIndex acc =? 0 then borrowIndex s
  else UserAccount.borrowIndex acc.

(** [account.borrowBalance == 0 ? 0 : (account.borrowBalance * borrowIndex) / borrowIdx] *)
Definition userBorrowBalance (acc : UserAccount.t) (s : State) : result N :=
  if UserAccount.borrowBalance acc =? 0 then Ok 0
  else
    let* m := mul (UserAccount.borrowBalance acc) (borrowIndex s) in
    div m (borrowIdx acc s).

Definition getBorrowBalance (user : address) (s : State) : result N :=
  userBorrowBalance (account s user) s.

Definition getAvailableToBorrow (user : address) (s : State) : result N :=
  let acc := account s user in
  if negb (UserAccount.collateralEnabled acc) then Ok 0
  else
    let* m := mul (UserAccount.supplyBalance acc) (exchangeRate s) in
    let* userSupplyBalance := div m ONE_E18 in
    let* c := mul userSupplyBalance (COLLATERAL_FACTOR K) in
    let* maxBorrow := div c 10000 in
    let* ubb := userBorrowBalance acc s in
    if ubb <? maxBorrow then sub maxBorrow ubb else Ok 0.

Definition getHealthFactor (user : address) (s : State) : result N :=
  let acc := account s user in
  if negb (UserAccount.collateralEnabled acc) || (UserAccount.borrowBalance acc =? 0)
  then Ok MAX_UINT256
  else
    let* m := mul (UserAccount.supplyBalance acc) (exchangeRate s) in
    let* userSupplyBalance := div m ONE_E18 in
    let* ubb := userBorrowBalance acc s in
    _calculateHealthFactor K userSupplyBalance ubb.

(** The modifiers [updateInterest] and [updateUserRewards(msg.sender)]. *)
Definition modifiers (now : N) (sender : address) (s : State) : result State :=
  let* s1 := _accrueInterest K now s in
  _updateUserRewards K now sender s1.

Definition supplyNative_body (sender : address) (amount : N) (s : State) : result State :=
  let* _ := require (negb (amount =? 0)) InvalidAmount in
  let acc := account s sender in
  let* m := mul amount ONE_E18 in
  let* supplyAmount := div m (exchangeRate s) in
  let* sb := add (UserAccount.supplyBalance acc) supplyAmount in
  let acc' :=
    UserAccount.mk sb (UserAccount.borrowBalance acc) (supplyIndex s)
      (UserAccount.borrowIndex acc) (UserAccount.collateralEnabled acc)
      (UserAccount.accruedRewards acc) (UserAccount.lastRewardUpdate acc) in
  let* ts := add (totalSupply s) amount in
  Ok (set_totalSupply ts (set_account sender acc' s)).

Definition supplyNative (now : N) (sender : address) (value : N) (s : State) : result State :=
  let* s1 := modifiers now sender (receive_value value s) in
  supplyNative_body sender value s1.

Definition withdraw_body (sender : address) (amount : N) (s : State) : result State :=
  let* _ := require (negb (amount =? 0)) InvalidAmount in
  let acc := account s sender in
  let* m := mul (UserAccount.supplyBalance acc) (exchangeRate s) in
  let* userSupplyBalance := div m ONE_E18 in
  let* _ := require (negb (userSupplyBalance <? amount)) InsufficientBalance in
  let* _ :=
    if UserAccount.collateralEnabled acc && (0 <? UserAccount.borrowBalance acc) then
      let* newSupplyBalance := sub userSupplyBalance amount in
      let* c := mul newSupplyBalance (COLLATERAL_FACTOR K) in
      let* maxBorrow := div c 10000 in
      let* b := mul (UserAccount.borrowBalance acc) (borrowIndex s) in
      let* currentBorrow := div b (borrowIdx acc s) in
      require (negb (maxBorrow <? currentBorrow)) CollateralDisabled
    else Ok tt in
  let* w := mul amount ONE_E18 in
  let* withdrawAmount := div w (exchangeRate s) in
  let* sb := sub (UserAccount.supplyBalance acc) withdrawAmount in
  let acc' :=
    UserAccount.mk sb (UserAccount.borrowBalance acc) (supplyIndex s)
      (UserAccount.borrowIndex acc) (UserAccount.collateralEnabled acc)
      (UserAccount.accruedRewards acc) (UserAccount.lastRewardUpdate acc) in
  let* ts := sub (totalSupply s) amount in
  send sender amount "Native transfer failed"
    (set_totalSupply ts (set_account sender acc' s)).

Definition withdraw (now : N) (sender : address) (amount : N) (s : State) : result State :=
  let* s1 := modifiers now sender s in
  withdraw_body sender amount s1.

Definition borrow_body (sender : address) (amount : N) (s : State) : result State :=
  let* _ := require (negb (amount =? 0)) InvalidAmount in
  let acc := account s sender in
  let* _ := require (UserAccount.collateralEnabled acc) CollateralDisabled in
  let* m := mul (UserAccount.supplyBalance acc) (exchangeRate s) in
  let* userSupplyBalance := div m ONE_E18 in
  let* c := mul userSupplyBalance (COLLATERAL_FACTOR K) in
  let* maxBorrow := div c 10000 in
  let* ubb := userBorrowBalance acc s in
  let* want := add ubb amount in
  let* _ := require (negb (maxBorrow <? want)) ExceedsBorrowCapacity in
  let* tb := add (totalBorrow s) amount in
  let* _ := require (negb (totalSupply s <? tb)) InsufficientLiquidity in
  let* a := mul amount ONE_E18 in
  let* scaled := div a (borrowIndex s) in
  let* bb := add (UserAccount.borrowBalance acc) scaled in
  let acc' :=
    UserAccount.mk (UserAccount.supplyBalance acc) bb (UserAccount.supplyIndex acc)
      (borrowIndex s) (UserAccount.collateralEnabled acc)
      (UserAccount.accruedRewards acc) (UserAccount.lastRewardUpdate acc) in
  let* tb' := add (totalBorrow s) amount in
  send sender amount "Native transfer failed"
    (set_totalBorrow tb' (set_account sender acc' s)).

Definition borrow (now : N) (sender : address) (amount : N) (s : State) : result State :=
  let* s1 := modifiers now sender s in
  borrow_body sender amount s1.

Definition repay_body (sender : address) (amount : N) (s : State) : result State :=
  let* _ := require (negb (amount =? 0)) InvalidAmount in
  let acc := account s sender in
  let* ubb := userBorrowBalance acc s in
  let repayAmount := if ubb <? amount then ubb else amount in
  let* rest := sub ubb repayAmount in
  let* r := mul rest ONE_E18 in
  let* bb := div r (borrowIndex s) in
  let acc' :=
    UserAccount.mk (UserAccount.supplyBalance acc) bb (UserAccount.supplyIndex acc)
      (borrowIndex s) (UserAccount.collateralEnabled acc)
      (UserAccount.accruedRewards acc) (UserAccount.lastRewardUpdate acc) in
  let* tb := sub (totalBorrow s) repayAmount in
  let s1 := set_totalBorrow tb (set_account sender acc' s) in
  if repayAmount <? amount then
    let* excess := sub amount repayAmount in
    let* tr := add (totalReserves s1) excess in
    Ok (set_totalReserves tr s1)
  else Ok s1.

Definition repay (now : N) (sender : address) (value : N) (s : State) : result State :=
  let* s1 := modifiers now sender (receive_value value s) in
  repay_body sender value s1.

Definition setCollateralEnabled_body (sender : address) (enabled : bool) (s : State)
  : result State :=
  let acc := account s sender in
  let* _ :=
    if negb enabled && (0 <? UserAccount.borrowBalance acc) then
      let* ubb := userBorrowBalance acc s in
      require (ubb =? 0) (RequireFailed "Repay before disabling collateral")
    else Ok tt in
  Ok (set_account sender
        (UserAccount.mk (UserAccount.supplyBalance acc) (UserAccount.borrowBalance acc)
           (UserAccount.supplyIndex acc) (UserAccount.borrowIndex acc) enabled
           (UserAccount.accruedRewards acc) (UserAccount.lastRewardUpdate acc)) s).

Definition setCollateralEnabled (now : N) (sender : address) (enabled : bool) (s : State)
  : result State :=
  let* s1 := modifiers now sender s in
  setCollateralEnabled_body sender enabled s1.

Definition claimRewards_body (now : N) (sender : address) (s : State) : result State :=
  let acc := account s sender in
  let rewardAmount := UserAccount.accruedRewards acc in
  let* _ := require (0 <? rewardAmount) (RequireFailed "No rewards") in
  let acc' :=
    UserAccount.mk (UserAccount.supplyBalance acc) (UserAccount.borrowBalance acc)
      (UserAccount.supplyIndex acc) (UserAccount.borrowIndex acc)
      (UserAccount.collateralEnabled acc) 0 now in
  let s1 := set_account sender acc' s in
  let rewardAmount' := if balance s1 <? rewardAmount then balance s1 else rewardAmount in
  send sender rewardAmount' "Reward transfer failed" s1.

Definition claimRewards (now : N) (sender : address) (s : State) : result State :=
  let* s1 := modifiers now sender s in
  claimRewards_body now sender s1.

Definition liquidate_body (sender borrower : address) (repayAmount : N) (s : State)
  : result State :=
  let* _ := require (negb (repayAmount =? 0)) InvalidAmount in
  let* _ := require (negb (borrower =? sender)) RevertEmpty in
  let acc := account s borrower in
  let* _ := require (UserAccount.collateralEnabled acc) (RequireFailed "No collateral") in
  let* m := mul (UserAccount.supplyBalance acc) (exchangeRate s) in
  let* borrowerSupplyBalance := div m ONE_E18 in
  let* b := mul (UserAccount.borrowBalance acc) (borrowIndex s) in
  let* borrowerBorrowBalance := div b (UserAccount.borrowIndex acc) in
  let* healthFactor := _calculateHealthFactor K borrowerSupplyBalance borrowerBorrowBalance in
  let* _ := require (healthFactor <? ONE_E18) (RequireFailed "Not liquidatable") in
  let repay := if borrowerBorrowBalance <? repayAmount then borrowerBorrowBalance
               else repayAmount in
  let* lb := mul repay (LIQUIDATION_BONUS K) in
  let* liquidationBonus := div lb 10000 in
  let* seizeAmount := add repay liquidationBonus in
  let* _ := require (seizeAmount <=? borrowerSupplyBalance)
              (RequireFailed "Insufficient collateral") in
  let* rest := sub borrowerBorrowBalance repay in
  let* r := mul rest ONE_E18 in
  let* bb := div r (borrowIndex s) in
  let* z := mul seizeAmount ONE_E18 in
  let* seizeAmountScaled := div z (exchangeRate s) in
  let* sb := sub (UserAccount.supplyBalance acc) seizeAmountScaled in
  let acc' :=
    UserAccount.mk sb bb (supplyIndex s) (borrowIndex s)
      (UserAccount.collateralEnabled acc)
      (UserAccount.accruedRewards acc) (UserAccount.lastRewardUpdate acc) in
  let* tb := sub (totalBorrow s) repay in
  let* ts := sub (totalSupply s) seizeAmount in
  send sender seizeAmount "Seize transfer failed"
    (set_totalSupply ts (set_totalBorrow tb (set_account borrower acc' s))).

Definition liquidate (now : N) (sender borrower : address) (value : N) (s : State)
  : result State :=
  let* s1 := _accrueInterest K now (receive_value value s) in
  liquidate_body sender borrower value s1.

(** *** Transactions and reachable storage *)

Inductive call : Type :=
| SupplyNative (value : N)
| Withdraw (amount : N)
| Borrow (amount : N)
| Repay (value : N)
| SetCollateralEnabled (enabled : bool)
| ClaimRewards
| Liquidate (borrower : address) (value : N)
| Receive (value : N).               (* [receive() external payable {}] *)

Record tx : Type := mkTx { timestamp : N; sender : address; action : call }.

Definition call_arg (c : call) : N :=
  match c with
  | SupplyNative v | Withdraw v | Borrow v | Repay v | Liquidate _ v | Receive v => v
  | SetCollateralEnabled _ | ClaimRewards => 0
  end.

Definition execute (t : tx) (s : State) : result State :=
  match action t with
  | SupplyNative v => supplyNative (timestamp t) (sender t) v s
  | Withdraw a => withdraw (timestamp t) (sender t) a s
  | Borrow a => borrow (timestamp t) (sender t) a s
  | Repay v => repay (timestamp t) (sender t) v s
  | SetCollateralEnabled b => setCollateralEnabled (timestamp t) (sender t) b s
  | ClaimRewards => claimRewards (timestamp t) (sender t) s
  | Liquidate b v => liquidate (timestamp t) (sender t) b v s
  | Receive v => Ok (receive_value v s)
  end.

(** Timestamps and arguments are [uint256] values. *)
Definition well_formed (t : tx) : bool :=
  (timestamp t <=? MAX_UINT256) && (call_arg (action t) <=? MAX_UINT256).

(** Storage reached from [init] by successful transactions with
    non-decreasing timestamps. (Every function of the contract starts with
    [_accrueInterest], whose checked [block.timestamp - lastUpdateTime]
    reverts when the clock goes back.) Between transactions the world may
    change which accounts refuse a payment. *)
Inductive reachable : State -> Prop :=
| reachable_init : reachable init
| reachable_step s t s' :
    reachable s ->
    well_formed t = true ->
    lastUpdateTime s <= timestamp t ->
    execute t s = Ok s' ->
    reachable s'
| reachable_world s R :
    reachable s ->
    reachable (set_refusing R s).

(** Runs a list of transactions; [None] as soon as one is ill-formed, goes
    back in time or reverts. *)
Fixpoint run (ts : list tx) (s : State) : option State :=
  match ts with
  | [] => Some s
  | t :: ts' =>
      if well_formed t && (lastUpdateTime s <=? timestamp t) then
        match execute t s with
        | Ok s' => run ts' s'
        | Err _ => None
        end
      else None
  end.

(** The storage [_accrueInterest] leaves ([s] itself when it reverts). *)
Definition accrued (now : N) (s : State) : State :=
  match _accrueInterest K now s with Ok s' => s' | Err _ => s end.

(** The storage after a trace from deployment ([init] when the trace does
    not run). *)
Definition after (ts : list tx) : State :=
  match run ts init with Some s => s | None => init end.

End QieLendNative.

(** ** Contract [QieLend] (the prior ERC20 version)

    The functions the properties below compare with [QieLendNative]. The
    contract's holding of the QIE token plays the part of [balance]; a token
    transfer the contract cannot cover makes the call fail. *)

Module QieLend.

Definition K : Constants :=
  mkConstants 70 80 5 12 DAYS_365 2 80 15 100.

(** The constructor sets [lastUpdateTime = block.timestamp]. *)
Definition deploy (now : N) : State :=
  mkState 0 0 0 now ONE_E18 ONE_E18 ONE_E18 ∅ 0 ∅.

Definition modifiers (now : N) (sender : address) (s : State) : result State :=
  let* s1 := _accrueInterest K now s in
  _updateUserRewards K now sender s1.

Definition getBorrowBalance (user : address) (s : State) : result N :=
  let acc := account s user in
  let* m := mul (UserAccount.borrowBalance acc) (borrowIndex s) in
  div m (UserAccount.borrowIndex acc).

Definition withdraw_body (sender : address) (amount : N) (s : State) : result State :=
  let* _ := require (0 <? amount) (RequireFailed "Amount must be greater than 0") in
  let acc := account s sender in
  let* m := mul (UserAccount.supplyBalance acc) (exchangeRate s) in
  let* userSupplyBalance := div m ONE_E18 in
  let* _ := require (amount <=? userSupplyBalance) (RequireFailed "Insufficient balance") in
  let* _ :=
    if UserAccount.collateralEnabled acc && (0 <? UserAccount.borrowBalance acc) then
      let* newSupplyBalance := sub userSupplyBalance amount in
      let* c := mul newSupplyBalance (COLLATERAL_FACTOR K) in
      let* maxBorrow := div c 10000 in
      require (UserAccount.borrowBalance acc <=? maxBorrow)
        (RequireFailed "Cannot withdraw: would exceed collateral")
    else Ok tt in
  let* w := mul amount ONE_E18 in
  let* withdrawAmount := div w (exchangeRate s) in
  let* sb := sub (UserAccount.supplyBalance acc) withdrawAmount in
  let acc' :=
    UserAccount.mk sb (UserAccount.borrowBalance acc) (supplyIndex s)
      (UserAccount.borrowIndex acc) (UserAccount.collateralEnabled acc)
      (UserAccount.accruedRewards acc) (UserAccount.lastRewardUpdate acc) in
  let* ts := sub (totalSupply s) amount in
  transfer amount "Transfer failed" (set_totalSupply ts (set_account sender acc' s)).

Definition withdraw (now : N) (sender : address) (amount : N) (s : State) : result State :=
  let* s1 := modifiers now sender s in
  withdraw_body sender amount s1.

Definition borrow_body (sender : address) (amount : N) (s : State) : result State :=
  let* _ := require (0 <? amount) (RequireFailed "Amount must be greater than 0") in
  let acc := account s sender in
  let* _ := require (UserAccount.collateralEnabled acc)
              (RequireFailed "Collateral must be enabled to borrow") in
  let* m := mul (UserAccount.supplyBalance acc) (exchangeRate s) in
  let* userSupplyBalance := div m ONE_E18 in
  let* c := mul userSupplyBalance (COLLATERAL_FACTOR K) in
  let* maxBorrow := div c 10000 in
  let* b := mul (UserAccount.borrowBalance acc) (borrowIndex s) in
  let* userBorrowBalance := div b (UserAccount.borrowIndex acc) in
  let* want := add userBorrowBalance amount in
  let* _ := require (want <=? maxBorrow) (RequireFailed "Exceeds borrowing capacity") in
  let* tb := add (totalBorrow s) amount in
  let* _ := require (tb <=? totalSupply s)
              (RequireFailed "Insufficient protocol liquidity") in
  let* a := mul amount ONE_E18 in
  let* scaled := div a (borrowIndex s) in
  let* bb := add (UserAccount.borrowBalance acc) scaled in
  let acc' :=
    UserAccount.mk (UserAccount.supplyBalance acc) bb (UserAccount.supplyIndex acc)
      (borrowIndex s) (UserAccount.collateralEnabled acc)
      (UserAccount.accruedRewards acc) (UserAccount.lastRewardUpdate acc) in
  let* tb' := add (totalBorrow s) amount in
  transfer amount "Transfer failed" (set_totalBorrow tb' (set_account sender acc' s)).

Definition borrow (now : N) (sender : address) (amount : N) (s : State) : result State :=
  let* s1 := modifiers now sender s in
  borrow_body sender amount s1.


(** *** The other functions of [QieLend] *)

(** [require(qieToken.transferFrom(msg.sender, address(this), amount), reason)]:
    [paid] says whether the token moved the amount (the caller holds and has
    approved it); the contract's holding grows by it. *)
Definition pull (paid : bool) (amount : N) (reason : string) (s : State) : result State :=
  if paid then Ok (set_balance (balance s + amount) s) else Err (RequireFailed reason).

Definition supply_body (sender : address) (paid : bool) (amount : N) (s : State)
  : result State :=
  let* _ := require (0 <? amount) (RequireFailed "Amount must be greater than 0") in
  let* s := pull paid amount "Transfer failed" s in
  let acc := account s sender in
  let* m := mul amount ONE_E18 in
  let* supplyAmount := div m (exchangeRate s) in
  let* sb := add (UserAccount.supplyBalance acc) supplyAmount in
  let acc' :=
    UserAccount.mk sb (UserAccount.borrowBalance acc) (supplyIndex s)
      (UserAccount.borrowIndex acc) (UserAccount.collateralEnabled acc)
      (UserAccount.accruedRewards acc) (UserAccount.lastRewardUpdate acc) in
  let* ts := add (totalSupply s) amount in
  Ok (set_totalSupply ts (set_account sender acc' s)).

Definition supply (now : N) (sender : address) (paid : bool) (amount : N) (s : State)
  : result State :=
  let* s1 := modifiers now sender s in
  supply_body sender paid amount s1.

Definition repay_body (sender : address) (paid : bool) (amount : N) (s : State)
  : result State :=
  let* _ := require (0 <? amount) (RequireFailed "Amount must be greater than 0") in
  let acc := account s sender in
  let* b := mul (UserAccount.borrowBalance acc) (borrowIndex s) in
  let* userBorrowBalance := div b (UserAccount.borrowIndex acc) in
  let repayAmount := if userBorrowBalance <? amount then userBorrowBalance else amount in
  let* s := pull paid repayAmount "Transfer failed" s in
  let* rest := sub userBorrowBalance repayAmount in
  let* r := mul rest ONE_E18 in
  let* bb := div r (borrowIndex s) in
  let acc' :=
    UserAccount.mk (UserAccount.supplyBalance acc) bb (UserAccount.supplyIndex acc)
      (borrowIndex s) (UserAccount.collateralEnabled acc)
      (UserAccount.accruedRewards acc) (UserAccount.lastRewardUpdate acc) in
  let* tb := sub (totalBorrow s) repayAmount in
  Ok (set_totalBorrow tb (set_account sender acc' s)).

Definition repay (now : N) (sender : address) (paid : bool) (amount : N) (s : State)
  : result State :=
  let* s1 := modifiers now sender s in
  repay_body sender paid amount s1.

Definition setCollateralEnabled_body (sender : address) (enabled : bool) (s : State)
  : result State :=
  let acc := account s sender in
  let* _ :=
    if negb enabled && (0 <? UserAccount.borrowBalance acc) then
      let* b := mul (UserAccount.borrowBalance acc) (borrowIndex s) in
      let* userBorrowBalance := div b (UserAccount.borrowIndex acc) in
      require (userBorrowBalance =? 0)
        (RequireFailed "Must repay all borrows before disabling collateral")
    else Ok tt in
  Ok (set_account sender
        (UserAccount.mk (UserAccount.supplyBalance acc) (UserAccount.borrowBalance acc)
           (UserAccount.supplyIndex acc) (UserAccount.borrowIndex acc) enabled
           (UserAccount.accruedRewards acc) (UserAccount.lastRewardUpdate acc)) s).

Definition setCollateralEnabled (now : N) (sender : address) (enabled : bool) (s : State)
  : result State :=
  let* s1 := modifiers now sender s in
  setCollateralEnabled_body sender enabled s1.

Definition claimRewards_body (now : N) (sender : address) (s : State) : result State :=
  let acc := account s sender in
  let rewardAmount := UserAccount.accruedRewards acc in
  let* _ := require (0 <? rewardAmount) (RequireFailed "No rewards to claim") in
  let acc' :=
    UserAccount.mk (UserAccount.supplyBalance acc) (UserAccount.borrowBalance acc)
      (UserAccount.supplyIndex acc) (UserAccount.borrowIndex acc)
      (UserAccount.collateralEnabled acc) 0 now in
  transfer rewardAmount "Reward transfer failed" (set_account sender acc' s).

Definition claimRewards (now : N) (sender : address) (s : State) : result State :=
  let* s1 := modifiers now sender s in
  claimRewards_body now sender s1.

Definition liquidate_body (sender borrower : address) (paid : bool) (repayAmount : N)
    (s : State) : result State :=
  let* _ := require (negb (borrower =? sender)) (RequireFailed "Cannot liquidate yourself") in
  let* _ := require (0 <? repayAmount)
              (RequireFailed "Repay amount must be greater than 0") in
  let acc := account s borrower in
  let* _ := require (UserAccount.collateralEnabled acc)
              (RequireFailed "Borrower has no collateral") in
  let* m := mul (UserAccount.supplyBalance acc) (exchangeRate s) in
  let* borrowerSupplyBalance := div m ONE_E18 in
  let* b := mul (UserAccount.borrowBalance acc) (borrowIndex s) in
  let* borrowerBorrowBalance := div b (UserAccount.borrowIndex acc) in
  let* healthFactor := _calculateHealthFactor K borrowerSupplyBalance borrowerBorrowBalance in
  let* _ := require (healthFactor <? ONE_E18)
              (RequireFailed "Borrower is not liquidatable") in
  let* lb := mul repayAmount (LIQUIDATION_BONUS K) in
  let* liquidationBonus := div lb 10000 in
  let* seizeAmount := add repayAmount liquidationBonus in
  let* _ := require (seizeAmount <=? borrowerSupplyBalance)
              (RequireFailed "Insufficient collateral to seize") in
  let* s := pull paid repayAmount "Repay transfer failed" s in
  let* rest := sub borrowerBorrowBalance repayAmount in
  let* r := mul rest ONE_E18 in
  let* bb := div r (borrowIndex s) in
  let* z := mul seizeAmount ONE_E18 in
  let* seizeAmountScaled := div z (exchangeRate s) in
  let* sb := sub (UserAccount.supplyBalance acc) seizeAmountScaled in
  let acc' :=
    UserAccount.mk sb bb (supplyIndex s) (borrowIndex s)
      (UserAccount.collateralEnabled acc)
      (UserAccount.accruedRewards acc) (UserAccount.lastRewardUpdate acc) in
  let* tb := sub (totalBorrow s) repayAmount in
  let* ts := sub (totalSupply s) seizeAmount in
  transfer seizeAmount "Seize transfer failed"
    (set_totalSupply ts (set_totalBorrow tb (set_account borrower acc' s))).

Definition liquidate (now : N) (sender borrower : address) (paid : bool) (repayAmount : N)
    (s : State) : result State :=
  let* s1 := _accrueInterest K now s in
  liquidate_body sender borrower paid repayAmount s1.

Inductive call : Type :=
| Supply (paid : bool) (amount : N)
| Withdraw (amount : N)
| Borrow (amount : N)
| Repay (paid : bool) (amount : N)
| SetCollateralEnabled (enabled : bool)
| ClaimRewards
| Liquidate (borrower : address) (paid : bool) (repayAmount : N).

Record tx : Type := mkTx { timestamp : N; sender : address; action : call }.

Definition execute (t : tx) (s : State) : result State :=
  match action t with
  | Supply p a => supply (timestamp t) (sender t) p a s
  | Withdraw a => withdraw (timestamp t) (sender t) a s
  | Borrow a => borrow (timestamp t) (sender t) a s
  | Repay p a => repay (timestamp t) (sender t) p a s
  | SetCollateralEnabled b => setCollateralEnabled (timestamp t) (sender t) b s
  | ClaimRewards => claimRewards (timestamp t) (sender t) s
  | Liquidate b p a => liquidate (timestamp t) (sender t) b p a s
  end.

(** Storage reached from a deployment by successful transactions. *)
Inductive reachable : State -> Prop :=
| reachable_deploy now : reachable (deploy now)
| reachable_step s t s' : reachable s -> execute t s = Ok s' -> reachable s'.

End QieLend.

(** ** Contract [PointsCalculator] *)

Module PointsCalculator.

Definition SUPPLY_WEIGHT : N := ONE_E18.       (* 1x weight *)
Definition BORROW_WEIGHT : N := 2 * ONE_E18.   (* 2x weight *)

(** Arithmetic inside [unchecked { ... }] wraps modulo [2^256]. *)
Definition wrap (x : N) : N := x mod (2 ^ 256).

Definition calculatePoints (supplied borrowed : N) : N :=
  wrap (wrap (supplied * SUPPLY_WEIGHT) / ONE_E18
        + wrap (borrowed * BORROW_WEIGHT) / ONE_E18).

End PointsCalculator.

(** * Vocabulary of the properties *)

Import QieLendNative.

(** ** Relations and invariants *)

(** [same_but_rewards user s s']: storage [s'] is [s] except for the reward
    fields ([accruedRewards], [lastRewardUpdate]) of [user]. *)
Definition same_but_rewards (user : address) (s s' : State) : Prop :=
  totalSupply s' = totalSupply s /\ totalBorrow s' = totalBorrow s /\
  totalReserves s' = totalReserves s /\ lastUpdateTime s' = lastUpdateTime s /\
  exchangeRate s' = exchangeRate s /\ supplyIndex s' = supplyIndex s /\
  borrowIndex s' = borrowIndex s /\ balance s' = balance s /\
  (forall a, a <> user -> account s' a = account s a) /\
  UserAccount.supplyBalance (account s' user) = UserAccount.supplyBalance (account s user) /\
  UserAccount.borrowBalance (account s' user) = UserAccount.borrowBalance (account s user) /\
  UserAccount.supplyIndex (account s' user) = UserAccount.supplyIndex (account s user) /\
  UserAccount.borrowIndex (account s' user) = UserAccount.borrowIndex (account s user) /\
  UserAccount.collateralEnabled (account s' user)
    = UserAccount.collateralEnabled (account s user).

(** The debt fields of one account against the global borrow index [idx]:
    the recorded index is not ahead of [idx]; with collateral disabled no
    debt is stored; a stored debt comes with a recorded index. *)
Definition debt_ok (idx : N) (u : UserAccount.t) : Prop :=
  UserAccount.borrowIndex u <= idx /\
  (UserAccount.collateralEnabled u = false -> UserAccount.borrowBalance u = 0) /\
  (UserAccount.borrowBalance u <> 0 -> UserAccount.borrowIndex u <> 0).

(** The global borrow index is positive and every account is [debt_ok]. *)
Definition debt_inv (s : State) : Prop :=
  0 < borrowIndex s /\ forall a, debt_ok (borrowIndex s) (account s a).


(** [require(healthFactor < 1e18, "Not liquidatable")] failed. *)
Definition NOT_LIQUIDATABLE : error := RequireFailed "Not liquidatable".

(** [accruedRewards] of [user] right after [_updateUserRewards(user)]. *)
Definition rewards_after_sync (now : N) (user : address) (s : State) : result N :=
  let* s' := _updateUserRewards K now user s in
  Ok (UserAccount.accruedRewards (account s' user)).

(** ** Scenarios *)

Definition alice : address := 1.
Definition bob : address := 2.
Definition T0 : N := 100.
Definition YEAR : N := DAYS_365.

(** Alice supplies 1000, enables collateral and borrows 500. *)
Definition open_position : list tx :=
  [ mkTx T0 alice (SupplyNative (1000 * ONE_E18));
    mkTx T0 alice (SetCollateralEnabled true);
    mkTx T0 alice (Borrow (500 * ONE_E18)) ].

(** One year later she borrows 10 more. *)
Definition borrow_more : list tx :=
  open_position ++ [ mkTx (T0 + YEAR) alice (Borrow (10 * ONE_E18)) ].

(** Or, one year later, she borrows one more wei. *)
Definition borrow_again : list tx :=
  open_position ++ [ mkTx (T0 + YEAR) alice (Borrow 1) ].

(** One year later she overpays her debt and disables collateral; another
    year later Bob supplies, which accrues interest again. *)
Definition close_position : list tx :=
  open_position ++
  [ mkTx (T0 + YEAR) alice (Repay (600 * ONE_E18));
    mkTx (T0 + YEAR) alice (SetCollateralEnabled false);
    mkTx (T0 + 2 * YEAR) bob (SupplyNative ONE_E18) ].

(** Twelve years of interest on a 70% loan, accrued by one later call. *)
Definition long_loan : list tx :=
  [ mkTx T0 alice (SupplyNative (1000 * ONE_E18));
    mkTx T0 alice (SetCollateralEnabled true);
    mkTx T0 alice (Borrow (700 * ONE_E18));
    mkTx (T0 + 12 * YEAR) bob (SupplyNative 1) ].

(** Alice and Bob supply; a year later Alice withdraws her whole supply, so
    the contract holds less than the rewards she accrued. *)
Definition drained : list tx :=
  [ mkTx T0 alice (SupplyNative ONE_E18);
    mkTx T0 bob (SupplyNative 1000000000000000);
    mkTx (T0 + YEAR) alice (Withdraw ONE_E18) ].

(** Alice supplies 10 wei and borrows 7. Five years of interest bring her
    real supply to 12 and her real borrow to 9: the health factor is exactly
    [1e18]. *)
Definition tiny_loan : list tx :=
  [ mkTx T0 alice (SupplyNative 10);
    mkTx T0 alice (SetCollateralEnabled true);
    mkTx T0 alice (Borrow 7) ].

(** Alice supplies and enables collateral, and never borrows. *)
Definition never_borrowed : list tx :=
  [ mkTx T0 alice (SupplyNative ONE_E18);
    mkTx T0 alice (SetCollateralEnabled true) ].

(** One year into the loan Alice repays 100. *)
Definition repay_part : list tx :=
  open_position ++ [ mkTx (T0 + YEAR) alice (Repay (100 * ONE_E18)) ].

(** Bob supplies 1000 and borrows 700 of them; Alice supplies 1000 and
    borrows 1. The contract is left holding 1299. *)
Definition thin_pool : list tx :=
  [ mkTx T0 bob (SupplyNative (1000 * ONE_E18));
    mkTx T0 bob (SetCollateralEnabled true);
    mkTx T0 bob (Borrow (700 * ONE_E18));
    mkTx T0 alice (SupplyNative (1000 * ONE_E18));
    mkTx T0 alice (SetCollateralEnabled true);
    mkTx T0 alice (Borrow ONE_E18) ].

(** Bob's one wei, supplied when the exchange rate is above [1e18], buys no
    scaled unit. *)
Definition one_wei : list tx :=
  open_position ++ [ mkTx (T0 + YEAR) bob (SupplyNative 1) ].

(** ** Vocabulary of the further properties *)

(** The kinked rate with the constants of [QieLendNative]: 2% plus a tenth of
    the utilization up to the kink, and one basis point per basis point of
    utilization above it. *)
Definition native_rate (u : N) : N :=
  if u <=? 8000 then 200 + u / 10 else u - 7000.

(** [body_frame u s s']: the indices and the clock of [s'] are those of [s],
    and so is every account but [u]'s. *)
Definition body_frame (u : address) (s s' : State) : Prop :=
  exchangeRate s' = exchangeRate s /\ supplyIndex s' = supplyIndex s /\
  borrowIndex s' = borrowIndex s /\ lastUpdateTime s' = lastUpdateTime s /\
  forall a, a <> u -> account s' a = account s a.

(** The account a transaction may write: the borrower for a liquidation, the
    sender otherwise. *)
Definition affected (t : tx) : address :=
  match action t with
  | Liquidate b _ => b
  | _ => sender t
  end.

(** The indices start at [1e18], and [supplyIndex] mirrors [exchangeRate]. *)
Definition index_inv (s : State) : Prop :=
  ONE_E18 <= exchangeRate s /\ ONE_E18 <= borrowIndex s /\
  supplyIndex s = exchangeRate s.

(** What the modifiers do to the indices, the clock and the accounts. *)
Definition step_frame (u : address) (s s' : State) : Prop :=
  exchangeRate s <= exchangeRate s' /\ borrowIndex s <= borrowIndex s' /\
  lastUpdateTime s <= lastUpdateTime s' /\
  (supplyIndex s = exchangeRate s -> supplyIndex s' = exchangeRate s') /\
  forall a, a <> u -> account s' a = account s a.

(** The storage of a successful result, [d] otherwise. *)
Definition ok_or (d : State) (r : result State) : State :=
  match r with Ok s => s | Err _ => d end.

(** No account has ever recorded a borrow index, and nothing is lent. *)
Definition never_lent (s : State) : Prop :=
  totalBorrow s = 0 /\ exchangeRate s = ONE_E18 /\ borrowIndex s = ONE_E18 /\
  forall a, UserAccount.borrowIndex (account s a) = 0 /\
            UserAccount.borrowBalance (account s a) = 0.

(** * Verification *)

(** ** Inversion of the checked operations *)

Lemma bind_Ok {A B : Type} (m : result A) (f : A -> result B) (b : B) :
  bind m f = Ok b -> exists a, m = Ok a /\ f a = Ok b.
Proof. destruct m as [a|e]; simpl; intros H; [eauto | discriminate]. Qed.

Lemma add_Ok a b c : add a b = Ok c -> c = a + b /\ a + b <= MAX_UINT256.
Proof.
  unfold add. destruct (N.leb_spec (a + b) MAX_UINT256) as [Hle|Hgt]; intros Heq; inversion Heq; auto.
Qed.

Lemma sub_Ok a b c : sub a b = Ok c -> c = a - b /\ b <= a.
Proof.
  unfold sub. destruct (N.leb_spec b a) as [Hle|Hgt]; intros Heq; inversion Heq; auto.
Qed.

Lemma mul_Ok a b c : mul a b = Ok c -> c = a * b /\ a * b <= MAX_UINT256.
Proof.
  unfold mul. destruct (N.leb_spec (a * b) MAX_UINT256) as [Hle|Hgt]; intros Heq; inversion Heq; auto.
Qed.

Lemma div_Ok a b c : div a b = Ok c -> c = a / b /\ b <> 0.
Proof.
  unfold div. destruct (N.eqb_spec b 0) as [Hz|Hnz]; intros Heq; inversion Heq; auto.
Qed.

Lemma require_Ok c e u : require c e = Ok u -> c = true.
Proof. unfold require. destruct c; [reflexivity | discriminate]. Qed.

Lemma send_Ok to v r s s' :
  send to v r s = Ok s' -> v <= balance s /\ s' = set_balance (balance s - v) s.
Proof.
  unfold send. destruct (N.leb_spec v (balance s)) as [Hle|Hgt]; simpl;
    [destruct (bool_decide _); simpl|]; intros Heq; inversion Heq; auto.
Qed.

(** A payment that went through was not refused. *)
Lemma send_Ok_accepted to v r s s' : send to v r s = Ok s' -> to ∉ refusing s.
Proof.
  unfold send. destruct (v <=? balance s); simpl; [|discriminate].
  case_bool_decide; simpl; [discriminate | done].
Qed.

Lemma transfer_Ok v r s s' :
  transfer v r s = Ok s' -> v <= balance s /\ s' = set_balance (balance s - v) s.
Proof.
  unfold transfer. destruct (N.leb_spec v (balance s)) as [Hle|Hgt]; intros Heq; inversion Heq; auto.
Qed.

(** The checked operations succeed within range. *)
Lemma add_intro a b : a + b <= MAX_UINT256 -> add a b = Ok (a + b).
Proof. intros H. unfold add. apply N.leb_le in H. by rewrite H. Qed.

Lemma mul_intro a b : a * b <= MAX_UINT256 -> mul a b = Ok (a * b).
Proof. intros H. unfold mul. apply N.leb_le in H. by rewrite H. Qed.

Lemma div_intro a b : b <> 0 -> div a b = Ok (a / b).
Proof. intros H. unfold div. apply N.eqb_neq in H. by rewrite H. Qed.

Lemma sub_intro a b : b <= a -> sub a b = Ok (a - b).
Proof. intros H. unfold sub. apply N.leb_le in H. by rewrite H. Qed.

Lemma send_intro to v r s :
  v <= balance s -> to ∉ refusing s ->
  send to v r s = Ok (set_balance (balance s - v) s).
Proof.
  intros H Ha. unfold send. apply N.leb_le in H. rewrite H.
  by rewrite bool_decide_eq_false_2.
Qed.

(** A refused payment reverts, whatever the balance. *)
Lemma send_refused to v r s : to ∈ refusing s -> send to v r s = Err (RequireFailed r).
Proof.
  intros Ha. unfold send. rewrite bool_decide_eq_true_2 by done.
  by rewrite andb_false_r.
Qed.

Lemma send_short to v r s : balance s < v -> send to v r s = Err (RequireFailed r).
Proof. intros H. unfold send. apply N.leb_gt in H. by rewrite H. Qed.

Lemma transfer_intro v r s :
  v <= balance s -> transfer v r s = Ok (set_balance (balance s - v) s).
Proof. intros H. unfold transfer. apply N.leb_le in H. by rewrite H. Qed.

Lemma ONE_E18_neq_0 : ONE_E18 <> 0.
Proof. discriminate. Qed.

(** Splits a hypothesis [let* x := m in k = Ok r] into [m = Ok x] and
    [k = Ok r], as far as it goes. *)
Ltac bind_inv H :=
  repeat match type of H with
  | bind ?m ?f = Ok _ =>
      let x := fresh "x" in
      let E := fresh "E" in
      let H' := fresh "H" in
      apply bind_Ok in H; destruct H as (x & E & H'); cbv beta in H';
      rename H' into H
  end.

Ltac arith_inv :=
  repeat match goal with
  | H : add _ _ = Ok _ |- _ => apply add_Ok in H; destruct H as [? ?]
  | H : sub _ _ = Ok _ |- _ => apply sub_Ok in H; destruct H as [? ?]
  | H : mul _ _ = Ok _ |- _ => apply mul_Ok in H; destruct H as [? ?]
  | H : div _ _ = Ok _ |- _ => apply div_Ok in H; destruct H as [? ?]
  | H : require _ _ = Ok _ |- _ => apply require_Ok in H
  | H : send _ _ _ _ = Ok _ |- _ => apply send_Ok in H; destruct H as [? ?]
  | H : transfer _ _ _ = Ok _ |- _ => apply transfer_Ok in H; destruct H as [? ?]
  | H : Ok _ = Ok _ |- _ => inversion H; clear H
  end.

(** Case analysis on the guarded updates [if c then ... else Ok v]. *)
Ltac cond_inv :=
  repeat match goal with
  | H : (if ?c then _ else _) = Ok _ |- _ =>
      let C := fresh "C" in destruct c eqn:C; [bind_inv H | ]; arith_inv
  end.

(** ** Reading accounts after a write *)

Lemma account_set_account_eq s a u : account (set_account a u s) a = u.
Proof. unfold account, set_account; simpl. by rewrite lookup_insert_eq. Qed.

Lemma account_set_account_ne s a b u :
  a <> b -> account (set_account a u s) b = account s b.
Proof. intros Hne. unfold account, set_account; simpl. by rewrite lookup_insert_ne. Qed.

Lemma account_init a : account init a = UserAccount.zero.
Proof. unfold account, init; simpl. by rewrite lookup_empty. Qed.

(** ** Effect of the modifiers *)

Lemma same_but_rewards_refl user s : same_but_rewards user s s.
Proof. unfold same_but_rewards. repeat split; auto. Qed.

Lemma set_account_same_but_rewards user s r t :
  same_but_rewards user s
    (set_account user
       (UserAccount.mk (UserAccount.supplyBalance (account s user))
          (UserAccount.borrowBalance (account s user))
          (UserAccount.supplyIndex (account s user))
          (UserAccount.borrowIndex (account s user))
          (UserAccount.collateralEnabled (account s user)) r t) s).
Proof.
  unfold same_but_rewards. rewrite account_set_account_eq. simpl.
  repeat split; auto.
  intros a Ha. apply account_set_account_ne. congruence.
Qed.

Section InternalFacts.
Variable K : Constants.

Lemma _accrueInterest_accounts now s s' :
  _accrueInterest K now s = Ok s' ->
  accounts s' = accounts s /\ borrowIndex s <= borrowIndex s' /\
  exchangeRate s <= exchangeRate s' /\ balance s' = balance s /\
  lastUpdateTime s' = now /\ lastUpdateTime s <= now.
Proof.
  unfold _accrueInterest. intros H.
  apply bind_Ok in H. destruct H as (te & Ete & H1). rename H1 into H.
  apply sub_Ok in Ete. destruct Ete as [-> Hle].
  destruct (_ || _).
  - inversion H; subst; simpl. repeat split; auto; lia.
  - bind_inv H. inversion H; subst; clear H; simpl.
    cond_inv; arith_inv; repeat split; auto; lia.
Qed.

Lemma _updateUserRewards_frame now user s s' :
  _updateUserRewards K now user s = Ok s' ->
  same_but_rewards user s s'.
Proof.
  unfold _updateUserRewards. intros H.
  destruct (UserAccount.supplyBalance (account s user) =? 0).
  - inversion H; subst; clear H. by apply set_account_same_but_rewards.
  - apply bind_Ok in H. destruct H as (te & Ete & H1). rename H1 into H.
    destruct (te =? 0).
    + inversion H; subst. apply same_but_rewards_refl.
    + bind_inv H. inversion H; subst; clear H.
      by apply set_account_same_but_rewards.
Qed.

(** The modifiers do not touch the world outside the contract. *)
Lemma _accrueInterest_refusing now s s' :
  _accrueInterest K now s = Ok s' -> refusing s' = refusing s.
Proof.
  unfold _accrueInterest. intros H.
  apply bind_Ok in H. destruct H as (te & Ete & H1). rename H1 into H.
  destruct (_ || _).
  - inversion H; subst; reflexivity.
  - bind_inv H. inversion H; subst; reflexivity.
Qed.

Lemma _updateUserRewards_refusing now user s s' :
  _updateUserRewards K now user s = Ok s' -> refusing s' = refusing s.
Proof.
  unfold _updateUserRewards. intros H.
  destruct (UserAccount.supplyBalance (account s user) =? 0).
  - inversion H; subst; reflexivity.
  - apply bind_Ok in H. destruct H as (te & Ete & H1). rename H1 into H.
    destruct (te =? 0).
    + inversion H; subst; reflexivity.
    + bind_inv H. inversion H; subst; reflexivity.
Qed.
End InternalFacts.

(** ** The debt invariant of [QieLendNative] *)

Lemma debt_ok_mono idx idx' u : idx <= idx' -> debt_ok idx u -> debt_ok idx' u.
Proof. unfold debt_ok. intros Hle (H1 & H2 & H3). repeat split; auto. lia. Qed.

Lemma debt_inv_init : debt_inv init.
Proof.
  split; [reflexivity|]. intros a. rewrite account_init.
  unfold debt_ok; simpl. repeat split; auto; lia.
Qed.

Lemma debt_inv_accrue now s s' :
  debt_inv s -> _accrueInterest K now s = Ok s' -> debt_inv s'.
Proof.
  intros [Hpos HI] H.
  apply _accrueInterest_accounts in H. destruct H as (Hacc & Hidx & _).
  split; [lia|]. intros a.
  unfold account. rewrite Hacc. eapply debt_ok_mono; [exact Hidx | apply HI].
Qed.

Lemma debt_inv_rewards now user s s' :
  debt_inv s -> _updateUserRewards K now user s = Ok s' -> debt_inv s'.
Proof.
  intros [Hpos HI] H.
  apply _updateUserRewards_frame in H.
  destruct H as (_ & _ & _ & _ & _ & _ & Hidx & _ & Hne & _ & Hbb & _ & Hbi & Hce).
  unfold debt_inv. rewrite Hidx. split; [exact Hpos|]. intros a.
  destruct (N.eq_dec a user) as [->|Hn].
  - unfold debt_ok. rewrite Hbi, Hce, Hbb. apply HI.
  - rewrite (Hne a Hn). apply HI.
Qed.

Lemma debt_inv_modifiers now user s s' :
  debt_inv s -> modifiers now user s = Ok s' -> debt_inv s'.
Proof.
  unfold modifiers. intros HI H. bind_inv H.
  eapply debt_inv_rewards; [|exact H]. eapply debt_inv_accrue; [|exact E].
  exact HI.
Qed.

Lemma debt_inv_receive_value v s : debt_inv s -> debt_inv (receive_value v s).
Proof. intros HI. exact HI. Qed.

(** Writing one account: the invariant survives when the new record keeps
    it. The other setters touch neither the accounts nor the borrow index. *)
Lemma debt_inv_set_account user u s :
  debt_inv s -> debt_ok (borrowIndex s) u -> debt_inv (set_account user u s).
Proof.
  intros [Hpos HI] Hu. split; [exact Hpos|]. intros a.
  change (borrowIndex (set_account user u s)) with (borrowIndex s).
  destruct (N.eq_dec user a) as [->|Hn].
  - rewrite account_set_account_eq. exact Hu.
  - rewrite account_set_account_ne by exact Hn. apply HI.
Qed.

Lemma debt_inv_frame s s' :
  borrowIndex s' = borrowIndex s -> accounts s' = accounts s ->
  debt_inv s -> debt_inv s'.
Proof.
  intros Hi Ha [Hpos HI]. unfold debt_inv, account. rewrite Hi, Ha. split; auto.
Qed.

(** A stored debt is never worth zero: with the recorded index at most the
    global one, [borrowBalance * borrowIndex / borrowIdx >= borrowBalance]. *)
Lemma userBorrowBalance_ge acc s v :
  UserAccount.borrowIndex acc <= borrowIndex s ->
  userBorrowBalance acc s = Ok v ->
  UserAccount.borrowBalance acc <= v.
Proof.
  unfold userBorrowBalance, borrowIdx. intros Hle H.
  destruct (N.eqb_spec (UserAccount.borrowBalance acc) 0) as [Hz|Hnz].
  - inversion H. lia.
  - bind_inv H. arith_inv. subst.
    apply N.div_le_lower_bound; [assumption|].
    destruct (N.eqb_spec (UserAccount.borrowIndex acc) 0) as [Hz'|Hnz'].
    + lia.
    + rewrite N.mul_comm. apply N.mul_le_mono_l. exact Hle.
Qed.

(** The account record written by an operation that leaves the debt fields
    and the collateral flag alone. *)
Lemma debt_ok_same_debt idx u u' :
  UserAccount.borrowBalance u' = UserAccount.borrowBalance u ->
  UserAccount.borrowIndex u' = UserAccount.borrowIndex u ->
  UserAccount.collateralEnabled u' = UserAccount.collateralEnabled u ->
  debt_ok idx u -> debt_ok idx u'.
Proof. unfold debt_ok. intros -> -> ->. auto. Qed.

(** The account record written by an operation that rebases the debt at the
    current index while collateral is enabled. *)
Lemma debt_ok_touch idx sb bb si r t :
  0 < idx -> debt_ok idx (UserAccount.mk sb bb si idx true r t).
Proof. unfold debt_ok; simpl. intros H. repeat split; [lia | congruence | lia]. Qed.

Lemma debt_inv_supplyNative_body user v s s' :
  debt_inv s -> supplyNative_body user v s = Ok s' -> debt_inv s'.
Proof.
  unfold supplyNative_body. intros HI H. bind_inv H. inversion H; subst; clear H.
  eapply debt_inv_frame; [reflexivity | reflexivity |].
  apply debt_inv_set_account; [exact HI|].
  eapply debt_ok_same_debt; [| | | apply HI]; reflexivity.
Qed.

Lemma debt_inv_withdraw_body user v s s' :
  debt_inv s -> withdraw_body user v s = Ok s' -> debt_inv s'.
Proof.
  unfold withdraw_body. intros HI H. bind_inv H.
  apply send_Ok in H. destruct H as [_ ->].
  eapply debt_inv_frame; [reflexivity | reflexivity |].
  apply debt_inv_set_account; [exact HI|].
  eapply debt_ok_same_debt; [| | | apply HI]; reflexivity.
Qed.

Lemma debt_inv_borrow_body user v s s' :
  debt_inv s -> borrow_body user v s = Ok s' -> debt_inv s'.
Proof.
  unfold borrow_body. intros HI H. bind_inv H.
  apply send_Ok in H. destruct H as [_ ->].
  apply require_Ok in E0.
  eapply debt_inv_frame; [reflexivity | reflexivity |].
  apply debt_inv_set_account; [exact HI|].
  rewrite E0. apply debt_ok_touch. apply HI.
Qed.

Lemma debt_inv_repay_body user v s s' :
  debt_inv s -> repay_body user v s = Ok s' -> debt_inv s'.
Proof.
  unfold repay_body. intros HI H.
  apply bind_Ok in H. destruct H as (u & Hreq & H1).
  apply bind_Ok in H1. destruct H1 as (ubb & Hubb & H2).
  apply bind_Ok in H2. destruct H2 as (rest & Hrest & H3).
  apply bind_Ok in H3. destruct H3 as (r & Hr & H4).
  apply bind_Ok in H4. destruct H4 as (bb & Hbb & H5).
  apply bind_Ok in H5. destruct H5 as (tb & Htb & H6).
  assert (HI' : debt_inv (set_account user
    (UserAccount.mk (UserAccount.supplyBalance (account s user)) bb
       (UserAccount.supplyIndex (account s user)) (borrowIndex s)
       (UserAccount.collateralEnabled (account s user))
       (UserAccount.accruedRewards (account s user))
       (UserAccount.lastRewardUpdate (account s user))) s)).
  { apply debt_inv_set_account; [exact HI|].
    destruct HI as [Hpos HI]. unfold debt_ok; simpl.
    repeat split; [lia | | lia].
    intros Hc. destruct (HI user) as (_ & Hz & _). specialize (Hz Hc).
    unfold userBorrowBalance in Hubb. rewrite Hz in Hubb. simpl in Hubb.
    inversion Hubb; subst ubb. clear Hubb.
    apply require_Ok in Hreq. apply negb_true_iff in Hreq. apply N.eqb_neq in Hreq.
    assert (Hlt : (0 <? v) = true) by (apply N.ltb_lt; lia).
    rewrite Hlt in Hrest. arith_inv. subst. simpl. apply N.Div0.div_0_l. }
  destruct (_ <? v) in H6.
  - bind_inv H6. inversion H6; subst; clear H6.
    eapply debt_inv_frame; [reflexivity | reflexivity | exact HI'].
  - inversion H6; subst; clear H6.
    eapply debt_inv_frame; [reflexivity | reflexivity | exact HI'].
Qed.

Lemma debt_inv_setCollateralEnabled_body user en s s' :
  debt_inv s -> setCollateralEnabled_body user en s = Ok s' -> debt_inv s'.
Proof.
  unfold setCollateralEnabled_body. intros HI H.
  apply bind_Ok in H. destruct H as (u & Hchk & H1).
  inversion H1; subst; clear H1.
  apply debt_inv_set_account; [exact HI|].
  destruct HI as [Hpos HI]. destruct (HI user) as (Hle & Hce & Hnz).
  unfold debt_ok; simpl. repeat split; [exact Hle | | exact Hnz].
  intros ->. simpl in Hchk.
  destruct (N.ltb_spec 0 (UserAccount.borrowBalance (account s user))) as [Hp|Hz];
    [|lia].
  apply bind_Ok in Hchk. destruct Hchk as (ubb & Hubb & Hreq).
  apply require_Ok in Hreq. apply N.eqb_eq in Hreq. subst ubb.
  apply userBorrowBalance_ge in Hubb; [lia | exact Hle].
Qed.

Lemma debt_inv_claimRewards_body now user s s' :
  debt_inv s -> claimRewards_body now user s = Ok s' -> debt_inv s'.
Proof.
  unfold claimRewards_body. intros HI H. bind_inv H.
  apply send_Ok in H. destruct H as [_ ->].
  eapply debt_inv_frame; [reflexivity | reflexivity |].
  apply debt_inv_set_account; [exact HI|].
  eapply debt_ok_same_debt; [| | | apply HI]; reflexivity.
Qed.

Lemma debt_inv_liquidate_body user borrower v s s' :
  debt_inv s -> liquidate_body user borrower v s = Ok s' -> debt_inv s'.
Proof.
  unfold liquidate_body. intros HI H. bind_inv H.
  apply send_Ok in H. destruct H as [_ ->].
  apply require_Ok in E1.
  eapply debt_inv_frame; [reflexivity | reflexivity |].
  apply debt_inv_set_account; [exact HI|].
  rewrite E1. apply debt_ok_touch. apply HI.
Qed.

Lemma debt_inv_execute t s s' :
  debt_inv s -> execute t s = Ok s' -> debt_inv s'.
Proof.
  intros HI H. unfold execute in H.
  destruct (action t) as [v|v|v|v|en| |b v|v].
  - unfold supplyNative in H. bind_inv H.
    eapply debt_inv_supplyNative_body; [|exact H].
    eapply debt_inv_modifiers; [|exact E]. by apply debt_inv_receive_value.
  - unfold withdraw in H. bind_inv H.
    eapply debt_inv_withdraw_body; [|exact H]. eapply debt_inv_modifiers; eauto.
  - unfold borrow in H. bind_inv H.
    eapply debt_inv_borrow_body; [|exact H]. eapply debt_inv_modifiers; eauto.
  - unfold repay in H. bind_inv H.
    eapply debt_inv_repay_body; [|exact H].
    eapply debt_inv_modifiers; [|exact E]. by apply debt_inv_receive_value.
  - unfold setCollateralEnabled in H. bind_inv H.
    eapply debt_inv_setCollateralEnabled_body; [|exact H].
    eapply debt_inv_modifiers; eauto.
  - unfold claimRewards in H. bind_inv H.
    eapply debt_inv_claimRewards_body; [|exact H]. eapply debt_inv_modifiers; eauto.
  - unfold liquidate in H. bind_inv H.
    eapply debt_inv_liquidate_body; [|exact H].
    eapply debt_inv_accrue; [|exact E]. by apply debt_inv_receive_value.
  - inversion H; subst. by apply debt_inv_receive_value.
Qed.

Lemma reachable_debt_inv s : reachable s -> debt_inv s.
Proof.
  induction 1 as [|s t s' Hr IH Hwf Ht Hx|s R Hr IH].
  - exact debt_inv_init.
  - eapply debt_inv_execute; eauto.
  - exact IH.
Qed.

(** ** Executable traces *)

Lemma run_reachable ts : forall s s', reachable s -> run ts s = Some s' -> reachable s'.
Proof.
  induction ts as [|t ts IH]; simpl; intros s s' Hr H.
  - inversion H; subst. exact Hr.
  - destruct (well_formed t) eqn:Hwf; simpl in H; [|discriminate].
    destruct (N.leb_spec (lastUpdateTime s) (timestamp t)) as [Hle|Hgt]; [|discriminate].
    destruct (execute t s) as [s1|e] eqn:Hx; [|discriminate].
    eapply IH; [|exact H]. eapply reachable_step; eauto.
Qed.

Lemma after_reachable ts : reachable (after ts).
Proof.
  unfold after. destruct (run ts init) as [s|] eqn:H.
  - eapply run_reachable; [exact reachable_init | exact H].
  - exact reachable_init.
Qed.

(** ** Errors of the checked operations *)











(** ** C1: borrowing on top of an existing debt *)

(** What [borrow] leaves as the account's real borrow: the stored balance
    plus the scaled amount, whatever interest had accrued on it. *)
Lemma borrow_body_borrow_balance user amount s s' v :
  borrow_body user amount s = Ok s' ->
  getBorrowBalance user s' = Ok v ->
  v = UserAccount.borrowBalance (account s user) + amount * ONE_E18 / borrowIndex s.
Proof.
  unfold borrow_body. intros H Hv. bind_inv H.
  apply send_Ok in H. destruct H as [_ ->].
  unfold getBorrowBalance in Hv.
  change (account (set_balance ?b (set_totalBorrow ?t ?u)) user)
    with (account u user) in Hv.
  rewrite account_set_account_eq in Hv.
  unfold userBorrowBalance, borrowIdx in Hv. simpl in Hv.
  arith_inv. subst.
  destruct (N.eqb_spec (UserAccount.borrowBalance (account s user)
                        + amount * ONE_E18 / borrowIndex s) 0) as [Hz|Hnz].
  - inversion Hv. lia.
  - destruct (N.eqb_spec (borrowIndex s) 0) as [Hi|Hi]; [contradiction|].
    bind_inv Hv. arith_inv. subst. rewrite N.div_mul by assumption. reflexivity.
Qed.

(** C1. The code at the failing input: a year after borrowing 500, Alice's
    real borrow is 534.99...; she borrows 10 more and her real borrow becomes
    509.34... (the stored 500 plus the scaled amount), where the
    specification asks for the old real borrow plus 10, 544.99...; the
    interest accrued over the year is gone from her account, and stays in
    [totalBorrow]. Borrowing a single wei leaves her with exactly 500. *)
Theorem borrow_erases_accrued_interest :
  getBorrowBalance alice (accrued (T0 + YEAR) (after open_position))
    = Ok 534999999986384000000 /\
  borrow (T0 + YEAR) alice (10 * ONE_E18) (after open_position) = Ok (after borrow_more) /\
  getBorrowBalance alice (after borrow_more) = Ok 509345794392761219320 /\
  totalBorrow (after borrow_more) = 544999999986384000000 /\
  borrow (T0 + YEAR) alice 1 (after open_position) = Ok (after borrow_again) /\
  getBorrowBalance alice (after borrow_again) = Ok 500000000000000000000.
Proof. repeat split; vm_compute; reflexivity. Qed.

(** ** C2: liquidity *)

(** C2, as stated, fails: after the accrual of twelve years of interest the
    reachable storage has [totalBorrow] above [totalSupply]. *)
Lemma liquidity_invariant_counterexample :
  ~ (forall s, reachable s -> totalBorrow s <= totalSupply s).
Proof.
  intros H. specialize (H (after long_loan) (after_reachable long_loan)).
  apply N.leb_le in H. vm_compute in H. discriminate H.
Qed.

(** C2, amended. A successful [borrow] leaves [totalBorrow <= totalSupply]
    (its liquidity guard). Every accrual of interest, whether or not a borrow
    follows it, raises both totals, adds the same amount to [totalBorrow] as
    to [totalSupply + totalReserves], and so never moves [totalSupply] by
    more than [totalBorrow]. *)
Theorem liquidity_after_borrow_and_accrual
    (now : N) (user : address) (amount : N) (s : State) :
  (forall s', borrow now user amount s = Ok s' -> totalBorrow s' <= totalSupply s') /\
  (forall s1, _accrueInterest K now s = Ok s1 ->
     totalBorrow s <= totalBorrow s1 /\ totalSupply s <= totalSupply s1 /\
     totalBorrow s1 + (totalSupply s + totalReserves s)
       = totalBorrow s + (totalSupply s1 + totalReserves s1) /\
     totalSupply s1 - totalSupply s <= totalBorrow s1 - totalBorrow s).
Proof.
  split.
  - intros s' Hb.
    unfold borrow in Hb. bind_inv Hb. unfold borrow_body in Hb. bind_inv Hb.
    apply send_Ok in Hb. destruct Hb as [_ ->]. simpl.
    arith_inv. subst.
    match goal with H : negb (totalSupply x <? _) = true |- _ =>
      apply negb_true_iff in H; apply N.ltb_ge in H; exact H end.
  - intros s1 Hacc. unfold _accrueInterest in Hacc.
    apply bind_Ok in Hacc. destruct Hacc as (te & Hte & H).
    destruct (_ || _).
    + inversion H; subst; simpl. lia.
    + bind_inv H. inversion H; subst; clear H; simpl.
      clear E9 E10. arith_inv. lia.
Qed.

(** A year into Alice's loan her second borrow passes the guard, and the
    accrual that precedes it moves [totalSupply] by less than [totalBorrow]. *)
Lemma liquidity_after_borrow_and_accrual_witness :
  totalBorrow (after borrow_again) <= totalSupply (after borrow_again) /\
  totalSupply (accrued (T0 + YEAR) (after open_position))
    - totalSupply (after open_position)
  <= totalBorrow (accrued (T0 + YEAR) (after open_position))
     - totalBorrow (after open_position).
Proof.
  assert (Hb : borrow (T0 + YEAR) alice 1 (after open_position)
               = Ok (after borrow_again)) by (vm_compute; reflexivity).
  assert (Hacc : _accrueInterest K (T0 + YEAR) (after open_position)
                 = Ok (accrued (T0 + YEAR) (after open_position)))
    by (vm_compute; reflexivity).
  pose proof (liquidity_after_borrow_and_accrual (T0 + YEAR) alice 1 (after open_position))
    as [Hguard Hacr].
  split.
  - exact (Hguard _ Hb).
  - exact (proj2 (proj2 (proj2 (Hacr _ Hacc)))).
Defined.

(** ** C3: no debt while collateral is disabled *)

(** C3. In every reachable storage, an account whose [collateralEnabled] is
    false has a real borrow of 0: its stored [borrowBalance] is 0, so
    [getBorrowBalance] and the raw quotient
    [borrowBalance * borrowIndex / account.borrowIndex] are 0, and they stay 0
    after any later accrual of interest grows the global [borrowIndex]. *)
Theorem collateral_disabled_no_debt (s : State) (a : address) :
  reachable s ->
  UserAccount.collateralEnabled (account s a) = false ->
  UserAccount.borrowBalance (account s a) = 0 /\
  getBorrowBalance a s = Ok 0 /\
  UserAccount.borrowBalance (account s a) * borrowIndex s
    / UserAccount.borrowIndex (account s a) = 0 /\
  (forall now s1, _accrueInterest K now s = Ok s1 ->
     UserAccount.collateralEnabled (account s1 a) = false /\
     getBorrowBalance a s1 = Ok 0).
Proof.
  intros Hr Hc.
  destruct (reachable_debt_inv s Hr) as [_ HI].
  destruct (HI a) as (_ & Hz & _). specialize (Hz Hc).
  split; [exact Hz|]. split; [|split].
  - unfold getBorrowBalance, userBorrowBalance. rewrite Hz. reflexivity.
  - rewrite Hz. rewrite N.mul_0_l. apply N.Div0.div_0_l.
  - intros now s1 H1. apply _accrueInterest_accounts in H1.
    destruct H1 as (Hacc & _).
    unfold getBorrowBalance, userBorrowBalance, account. rewrite Hacc.
    fold (account s a). rewrite Hz. split; [exact Hc | reflexivity].
Qed.

Lemma collateral_disabled_no_debt_witness :
  UserAccount.collateralEnabled (account (after close_position) alice) = false /\
  getBorrowBalance alice (after close_position) = Ok 0.
Proof.
  assert (Hc : UserAccount.collateralEnabled (account (after close_position) alice) = false)
    by (vm_compute; reflexivity).
  split; [exact Hc|].
  exact (proj1 (proj2 (collateral_disabled_no_debt (after close_position) alice
                         (after_reachable close_position) Hc))).
Defined.

(** ** C4: the liquidation gate *)





(** Eight years on, the same position has health factor below [1e18] and the
    liquidation goes through. *)
Example liquidation_below_one :
  (let* hf := getHealthFactor alice (accrued (T0 + 8 * YEAR) (after tiny_loan)) in
   Ok (hf <? ONE_E18)) = Ok true /\
  isOk (liquidate (T0 + 8 * YEAR) bob alice 1 (after tiny_loan)) = true.
Proof. split; vm_compute; reflexivity. Qed.

(** ** C5: the rewards view against the rewards sync *)

(** C5. The code at the failing input: Alice supplied [1e18] one second ago.
    The sync credits her 380517503 wei; the view reports a number [1e18]
    times larger, because it never divides the scaled rate back by [1e18]. *)
Theorem view_rewards_differ_from_sync :
  getAccruedRewards K (T0 + 1) alice (after [mkTx T0 alice (SupplyNative ONE_E18)])
    = Ok 380517503805175038051750380 /\
  rewards_after_sync (T0 + 1) alice (after [mkTx T0 alice (SupplyNative ONE_E18)])
    = Ok 380517503.
Proof. split; vm_compute; reflexivity. Qed.

(** ** C6: liquidating an account that never borrowed *)

(** An account whose recorded borrow index is still 0 makes [liquidate]
    divide by zero, whatever the health of the position. *)
Lemma liquidate_zero_index_panics now liquidator borrower value s s1 S :
  reachable s ->
  _accrueInterest K now (receive_value value s) = Ok s1 ->
  value <> 0 -> borrower <> liquidator ->
  UserAccount.collateralEnabled (account s1 borrower) = true ->
  getSupplyBalance borrower s1 = Ok S ->
  UserAccount.borrowIndex (account s1 borrower) = 0 ->
  liquidate now liquidator borrower value s = Err (Panic PANIC_DIVISION).
Proof.
  intros Hr Hacc Hv Hne Hc HS Hz.
  assert (HI : debt_inv s1).
  { eapply debt_inv_accrue; [|exact Hacc].
    apply debt_inv_receive_value. by apply reachable_debt_inv. }
  destruct HI as [_ HI]. destruct (HI borrower) as (_ & _ & Hnz).
  assert (Hbb : UserAccount.borrowBalance (account s1 borrower) = 0).
  { destruct (N.eq_dec (UserAccount.borrowBalance (account s1 borrower)) 0) as [E|E];
      [exact E | exfalso; exact (Hnz E Hz)]. }
  unfold liquidate. rewrite Hacc. cbn [bind]. unfold liquidate_body.
  apply N.eqb_neq in Hv. rewrite Hv. apply N.eqb_neq in Hne. rewrite Hne.
  rewrite Hc. cbn [bind require negb].
  unfold getSupplyBalance in HS.
  apply bind_Ok in HS. destruct HS as (m & Hm & HS). rewrite Hm. cbn [bind]. rewrite HS.
  cbn [bind]. rewrite Hbb, Hz. reflexivity.
Qed.

(** C6. The code at the failing input: Alice never borrowed, her real borrow
    is 0 and her health factor is the maximal value, yet Bob's [liquidate]
    reverts with the division-by-zero panic instead of "Not liquidatable". *)
Theorem liquidate_never_borrowed_panics :
  UserAccount.collateralEnabled (account (after never_borrowed) alice) = true /\
  UserAccount.borrowIndex (account (after never_borrowed) alice) = 0 /\
  getBorrowBalance alice (after never_borrowed) = Ok 0 /\
  getHealthFactor alice (after never_borrowed) = Ok MAX_UINT256 /\
  liquidate T0 bob alice 1 (after never_borrowed) = Err (Panic PANIC_DIVISION) /\
  liquidate T0 bob alice 1 (after never_borrowed) <> Err NOT_LIQUIDATABLE.
Proof.
  repeat split; try (vm_compute; reflexivity).
  vm_compute. discriminate.
Qed.

(** Once the account has recorded an index (it borrowed and repaid in full),
    the same call is refused with "Not liquidatable". *)
Example liquidate_repaid_refused :
  getBorrowBalance alice (after close_position) = Ok 0 /\
  liquidate (T0 + 2 * YEAR) bob alice 1
    (after (close_position ++ [mkTx (T0 + 2 * YEAR) alice (SetCollateralEnabled true)]))
  = Err NOT_LIQUIDATABLE.
Proof. split; vm_compute; reflexivity. Qed.

(** ** The ERC20 version never lends *)

Lemma _accrueInterest_no_debt (K0 : Constants) now s s' :
  _accrueInterest K0 now s = Ok s' -> totalBorrow s = 0 ->
  totalBorrow s' = 0 /\ exchangeRate s' = exchangeRate s /\
  borrowIndex s' = borrowIndex s /\ totalSupply s' = totalSupply s /\
  totalReserves s' = totalReserves s.
Proof.
  unfold _accrueInterest. intros H Hb. rewrite Hb in H.
  apply bind_Ok in H. destruct H as (te & _ & H).
  destruct (_ || _).
  - inversion H; subst; simpl. auto.
  - cbn [N.ltb N.compare] in H.
    apply bind_Ok in H. destruct H as (ut & _ & H).
    apply bind_Ok in H. destruct H as (u & _ & H).
    apply bind_Ok in H. destruct H as (ubp & _ & H).
    apply bind_Ok in H. destruct H as (br & _ & H).
    apply bind_Ok in H. destruct H as (n & _ & H).
    apply bind_Ok in H. destruct H as (d & _ & H).
    apply bind_Ok in H. destruct H as (brps & _ & H).
    apply bind_Ok in H. destruct H as (p & Hp & H).
    apply bind_Ok in H. destruct H as (p' & Hp' & H).
    apply bind_Ok in H. destruct H as (ia & Hia & H).
    apply bind_Ok in H. destruct H as (r & Hr & H).
    apply bind_Ok in H. destruct H as (ra & Hra & H).
    apply bind_Ok in H. destruct H as (si & Hsi & H).
    apply bind_Ok in H. destruct H as (er' & Her & H).
    apply bind_Ok in H. destruct H as (bi' & Hbi & H).
    apply bind_Ok in H. destruct H as (tr' & Htr & H).
    apply bind_Ok in H. destruct H as (tb' & Htb & H).
    apply bind_Ok in H. destruct H as (ts' & Hts & H).
    inversion H; subst s'; clear H. simpl.
    apply mul_Ok in Hp. destruct Hp as [-> _]. rewrite N.mul_0_l in Hp'.
    apply mul_Ok in Hp'. destruct Hp' as [-> _]. rewrite N.mul_0_l in Hia.
    apply div_Ok in Hia. destruct Hia as [-> _]. rewrite N.Div0.div_0_l in *.
    apply mul_Ok in Hr. destruct Hr as [-> _]. rewrite N.mul_0_l in Hra.
    apply div_Ok in Hra. destruct Hra as [-> _]. rewrite N.Div0.div_0_l in *.
    apply sub_Ok in Hsi. destruct Hsi as [-> _]. rewrite N.sub_diag in *.
    inversion Hbi; subst bi'.
    arith_inv. subst.
    assert (Hx : er' = exchangeRate s).
    { destruct (0 <? totalSupply s).
      - bind_inv Her. arith_inv. subst. rewrite N.mul_0_l, N.Div0.div_0_l. lia.
      - inversion Her. reflexivity. }
    repeat split; auto; lia.
Qed.

Module QieLendFacts.
Import QieLend.

Lemma never_lent_frame s s' :
  totalBorrow s' = totalBorrow s -> exchangeRate s' = exchangeRate s ->
  borrowIndex s' = borrowIndex s -> accounts s' = accounts s ->
  never_lent s -> never_lent s'.
Proof.
  intros H1 H2 H3 H4 (A & B & C & D). unfold never_lent, account.
  rewrite H1, H2, H3, H4. auto.
Qed.

Lemma never_lent_set_account u acc s :
  never_lent s ->
  UserAccount.borrowIndex acc = 0 -> UserAccount.borrowBalance acc = 0 ->
  never_lent (set_account u acc s).
Proof.
  intros (A & B & C & D) H1 H2. unfold never_lent. simpl.
  repeat split; auto.
  - destruct (N.eq_dec u a) as [->|Hn].
    + rewrite account_set_account_eq. exact H1.
    + rewrite account_set_account_ne by exact Hn. apply D.
  - destruct (N.eq_dec u a) as [->|Hn].
    + rewrite account_set_account_eq. exact H2.
    + rewrite account_set_account_ne by exact Hn. apply D.
Qed.

Lemma never_lent_accrue now s s' :
  never_lent s -> _accrueInterest QieLend.K now s = Ok s' -> never_lent s'.
Proof.
  intros (A & B & C & D) H.
  pose proof (_accrueInterest_accounts _ _ _ _ H) as (Ha & _).
  destruct (_accrueInterest_no_debt _ _ _ _ H A) as (H1 & H2 & H3 & _).
  unfold never_lent, account. rewrite H1, H2, H3, Ha. auto.
Qed.

Lemma never_lent_modifiers now u s s' :
  never_lent s -> QieLend.modifiers now u s = Ok s' -> never_lent s'.
Proof.
  unfold QieLend.modifiers. intros HI H. bind_inv H.
  pose proof (never_lent_accrue _ _ _ HI E) as (A & B & C & D).
  apply _updateUserRewards_frame in H.
  destruct H as (_ & Htb & _ & _ & Her & _ & Hbi & _ & Hne & _ & Hbb & _ & Hidx & _).
  unfold never_lent. rewrite Htb, Her, Hbi. repeat split; auto.
  - destruct (N.eq_dec a u) as [->|Hn]; [rewrite Hidx | rewrite (Hne a Hn)]; apply D.
  - destruct (N.eq_dec a u) as [->|Hn]; [rewrite Hbb | rewrite (Hne a Hn)]; apply D.
Qed.

(** With no recorded index, the division by [account.borrowIndex] fails. *)
Lemma never_lent_no_division s a b v :
  never_lent s -> div b (UserAccount.borrowIndex (account s a)) = Ok v -> False.
Proof.
  intros (_ & _ & _ & D) H. apply div_Ok in H. destruct H as [_ H].
  apply H. apply D.
Qed.

Lemma borrow_body_never u v s s' : never_lent s -> QieLend.borrow_body u v s = Ok s' -> False.
Proof.
  unfold QieLend.borrow_body. intros HI H.
  apply bind_Ok in H. destruct H as (? & _ & H).
  apply bind_Ok in H. destruct H as (? & _ & H).
  apply bind_Ok in H. destruct H as (? & _ & H).
  apply bind_Ok in H. destruct H as (? & _ & H).
  apply bind_Ok in H. destruct H as (? & _ & H).
  apply bind_Ok in H. destruct H as (? & _ & H).
  apply bind_Ok in H. destruct H as (? & _ & H).
  apply bind_Ok in H. destruct H as (? & Hd & H).
  eapply never_lent_no_division; eauto.
Qed.

Lemma repay_body_never u p v s s' : never_lent s -> repay_body u p v s = Ok s' -> False.
Proof.
  unfold repay_body. intros HI H.
  apply bind_Ok in H. destruct H as (? & _ & H).
  apply bind_Ok in H. destruct H as (? & _ & H).
  apply bind_Ok in H. destruct H as (? & Hd & H).
  eapply never_lent_no_division; eauto.
Qed.

Lemma liquidate_body_never u b p v s s' :
  never_lent s -> liquidate_body u b p v s = Ok s' -> False.
Proof.
  unfold liquidate_body. intros HI H.
  apply bind_Ok in H. destruct H as (? & _ & H).
  apply bind_Ok in H. destruct H as (? & _ & H).
  apply bind_Ok in H. destruct H as (? & _ & H).
  apply bind_Ok in H. destruct H as (? & _ & H).
  apply bind_Ok in H. destruct H as (? & _ & H).
  apply bind_Ok in H. destruct H as (? & _ & H).
  apply bind_Ok in H. destruct H as (? & Hd & H).
  eapply never_lent_no_division; eauto.
Qed.

Lemma never_lent_supply_body u p v s s' :
  never_lent s -> supply_body u p v s = Ok s' -> never_lent s'.
Proof.
  unfold supply_body, pull. intros HI H.
  apply bind_Ok in H. destruct H as (? & _ & H).
  destruct p; [|discriminate]. cbn [bind] in H. bind_inv H. inversion H; subst.
  eapply never_lent_frame; [reflexivity | reflexivity | reflexivity | reflexivity |].
  apply never_lent_set_account.
  - eapply never_lent_frame; [| | | |exact HI]; reflexivity.
  - apply HI.
  - apply HI.
Qed.

Lemma never_lent_withdraw_body u v s s' :
  never_lent s -> QieLend.withdraw_body u v s = Ok s' -> never_lent s'.
Proof.
  unfold QieLend.withdraw_body. intros HI H. bind_inv H.
  apply transfer_Ok in H. destruct H as [_ ->].
  eapply never_lent_frame; [reflexivity | reflexivity | reflexivity | reflexivity |].
  apply never_lent_set_account; [exact HI | apply HI | apply HI].
Qed.

Lemma never_lent_setCollateralEnabled_body u en s s' :
  never_lent s -> setCollateralEnabled_body u en s = Ok s' -> never_lent s'.
Proof.
  unfold setCollateralEnabled_body. intros HI H. bind_inv H. inversion H; subst.
  apply never_lent_set_account; [exact HI | apply HI | apply HI].
Qed.

Lemma never_lent_claimRewards_body now u s s' :
  never_lent s -> claimRewards_body now u s = Ok s' -> never_lent s'.
Proof.
  unfold claimRewards_body. intros HI H. bind_inv H.
  apply transfer_Ok in H. destruct H as [_ ->].
  eapply never_lent_frame; [reflexivity | reflexivity | reflexivity | reflexivity |].
  apply never_lent_set_account; [exact HI | apply HI | apply HI].
Qed.

Lemma never_lent_execute t s s' :
  never_lent s -> QieLend.execute t s = Ok s' -> never_lent s'.
Proof.
  intros HI H. unfold QieLend.execute in H.
  destruct (QieLend.action t) as [p v|v|v|p v|en| |b p v].
  - unfold supply in H. bind_inv H.
    eapply never_lent_supply_body; [|exact H]. eapply never_lent_modifiers; eauto.
  - unfold QieLend.withdraw in H. bind_inv H.
    eapply never_lent_withdraw_body; [|exact H]. eapply never_lent_modifiers; eauto.
  - unfold QieLend.borrow in H. bind_inv H. exfalso.
    eapply borrow_body_never; [|exact H]. eapply never_lent_modifiers; eauto.
  - unfold repay in H. bind_inv H. exfalso.
    eapply repay_body_never; [|exact H]. eapply never_lent_modifiers; eauto.
  - unfold setCollateralEnabled in H. bind_inv H.
    eapply never_lent_setCollateralEnabled_body; [|exact H].
    eapply never_lent_modifiers; eauto.
  - unfold claimRewards in H. bind_inv H.
    eapply never_lent_claimRewards_body; [|exact H]. eapply never_lent_modifiers; eauto.
  - unfold liquidate in H. bind_inv H. exfalso.
    eapply liquidate_body_never; [|exact H]. eapply never_lent_accrue; eauto.
Qed.

Lemma reachable_never_lent s : QieLend.reachable s -> never_lent s.
Proof.
  induction 1 as [now|s t s' Hr IH Hx].
  - unfold never_lent, QieLend.deploy; simpl. repeat split; auto;
      unfold account; simpl; rewrite lookup_empty; reflexivity.
  - eapply never_lent_execute; eauto.
Qed.

(** X19. In [QieLend] no storage reached from deployment holds any debt: the
    exchange rate and the borrow index stay at [1e18], [totalBorrow] stays 0,
    and every [borrow], [repay] and [liquidate] fails (no account ever
    records a borrow index, and each of them divides by it). *)
Theorem erc20_never_lends (s : State) (now : N) (u b : address) (p : bool) (v : N) :
  QieLend.reachable s ->
  totalBorrow s = 0 /\ exchangeRate s = ONE_E18 /\ borrowIndex s = ONE_E18 /\
  isOk (QieLend.borrow now u v s) = false /\
  isOk (repay now u p v s) = false /\
  isOk (liquidate now u b p v s) = false.
Proof.
  intros Hr. pose proof (reachable_never_lent s Hr) as HI.
  destruct HI as (A & B & C & D).
  assert (HI : never_lent s) by (unfold never_lent; auto).
  repeat split; auto.
  - destruct (QieLend.borrow now u v s) as [s'|e] eqn:H; [|reflexivity]. exfalso.
    unfold QieLend.borrow in H. bind_inv H.
    eapply borrow_body_never; [|exact H]. eapply never_lent_modifiers; eauto.
  - destruct (repay now u p v s) as [s'|e] eqn:H; [|reflexivity]. exfalso.
    unfold repay in H. bind_inv H.
    eapply repay_body_never; [|exact H]. eapply never_lent_modifiers; eauto.
  - destruct (liquidate now u b p v s) as [s'|e] eqn:H; [|reflexivity]. exfalso.
    unfold liquidate in H. bind_inv H.
    eapply liquidate_body_never; [|exact H]. eapply never_lent_accrue; eauto.
Qed.

Lemma erc20_never_lends_witness :
  isOk (borrow T0 alice 1
          (ok_or (deploy T0) (supply T0 alice true ONE_E18 (deploy T0)))) = false.
Proof.
  assert (Hr : reachable (ok_or (deploy T0) (supply T0 alice true ONE_E18 (deploy T0)))).
  { apply (reachable_step (deploy T0) (mkTx T0 alice (Supply true ONE_E18)));
      [apply reachable_deploy | vm_compute; reflexivity]. }
  exact (proj1 (proj2 (proj2 (proj2
    (erc20_never_lends _ T0 alice bob true 1 Hr))))).
Defined.

End QieLendFacts.

(** ** C7: the collateral check of [withdraw] *)

(** The body of [withdraw] for an indebted account with collateral enabled
    and an amount within its real supply [S]: the collateral check on the
    index-adjusted debt [B], then the pool's [totalSupply], then the
    payment. *)
Lemma native_withdraw_collateral_check user amount s S B :
  amount <> 0 ->
  UserAccount.collateralEnabled (account s user) = true ->
  getSupplyBalance user s = Ok S -> amount <= S ->
  getBorrowBalance user s = Ok B -> 0 < B ->
  (S - amount) * 7000 <= MAX_UINT256 ->
  exists s2,
    balance s2 = balance s /\ refusing s2 = refusing s /\
    withdraw_body user amount s =
      let* _ := require (negb ((S - amount) * 7000 / 10000 <? B)) CollateralDisabled in
      let* _ := sub (totalSupply s) amount in
      send user amount "Native transfer failed" s2.
Proof.
  intros Hamt Hce HS Hle HB Hpos Hov.
  unfold getSupplyBalance in HS.
  apply bind_Ok in HS. destruct HS as (m & Hm & HS).
  unfold getBorrowBalance, userBorrowBalance in HB.
  destruct (N.eqb_spec (UserAccount.borrowBalance (account s user)) 0) as [Hz|Hnz].
  { inversion HB. lia. }
  apply bind_Ok in HB. destruct HB as (b & Hb & HB).
  assert (Hbr : (UserAccount.collateralEnabled (account s user)
                 && (0 <? UserAccount.borrowBalance (account s user))) = true).
  { rewrite Hce. simpl. apply N.ltb_lt. lia. }
  set (acc' := UserAccount.mk
         (UserAccount.supplyBalance (account s user) - amount * ONE_E18 / exchangeRate s)
         (UserAccount.borrowBalance (account s user)) (supplyIndex s)
         (UserAccount.borrowIndex (account s user))
         (UserAccount.collateralEnabled (account s user))
         (UserAccount.accruedRewards (account s user))
         (UserAccount.lastRewardUpdate (account s user))).
  exists (set_totalSupply (totalSupply s - amount) (set_account user acc' s)).
  split; [reflexivity|]. split; [reflexivity|].
  unfold withdraw_body.
  rewrite (proj2 (N.eqb_neq _ _) Hamt). cbn [bind require negb].
  rewrite Hm. cbn [bind]. rewrite HS. cbn [bind].
  assert (Hge : (S <? amount) = false) by (apply N.ltb_ge; exact Hle).
  rewrite Hge. cbn [bind require negb].
  rewrite Hbr. rewrite sub_intro by exact Hle. cbn [bind].
  change (COLLATERAL_FACTOR K) with 7000.
  rewrite mul_intro by exact Hov. cbn [bind].
  rewrite div_intro by discriminate. cbn [bind].
  rewrite Hb. cbn [bind]. rewrite HB. cbn [bind].
  apply mul_Ok in Hm. destruct Hm as [-> Hmov].
  apply div_Ok in HS. destruct HS as [-> _].
  set (sb := UserAccount.supplyBalance (account s user)) in *.
  set (er := exchangeRate s) in *.
  assert (Hscaled : amount * ONE_E18 <= sb * er).
  { pose proof (N.Div0.mul_div_le (sb * er) ONE_E18). nia. }
  assert (Her : er <> 0).
  { intros E. rewrite E, N.mul_0_r in Hle. rewrite N.Div0.div_0_l in Hle. lia. }
  assert (Hwa : amount * ONE_E18 / er <= sb).
  { rewrite <- (N.div_mul sb er Her). apply N.Div0.div_le_mono. exact Hscaled. }
  destruct (N.ltb_spec ((sb * er / ONE_E18 - amount) * 7000 / 10000) B) as [Hlt|Hge'].
  - reflexivity.
  - cbn [bind require negb].
    rewrite mul_intro by (eapply N.le_trans; [exact Hscaled | exact Hmov]). cbn [bind].
    rewrite div_intro by exact Her. cbn [bind].
    rewrite sub_intro by exact Hwa. cbn [bind].
    destruct (N.le_gt_cases amount (totalSupply s)) as [Hts|Hts].
    + rewrite sub_intro by exact Hts. cbn [bind]. reflexivity.
    + unfold sub. apply N.leb_gt in Hts. rewrite Hts. reflexivity.
Qed.

(** C7, as stated, fails: forty years after [thin_pool], Alice's real supply
    has grown to 1462.66 against a debt of 3.2, so withdrawing 1400 leaves a
    limit of 43.86 above her debt, and the call reverts all the same, with
    "Native transfer failed": the contract holds 1299. *)
Lemma withdraw_collateral_counterexample :
  ~ (forall s now user amount s1 S B,
       reachable s ->
       modifiers now user s = Ok s1 ->
       UserAccount.collateralEnabled (account s1 user) = true ->
       getSupplyBalance user s1 = Ok S ->
       getBorrowBalance user s1 = Ok B -> 0 < B ->
       0 < amount -> amount <= S ->
       (isOk (withdraw now user amount s) = true
        <-> B <= (S - amount) * COLLATERAL_FACTOR K / 10000)).
Proof.
  intros H.
  set (s1 := ok_or init (modifiers (T0 + 40 * YEAR) alice (after thin_pool))).
  assert (Hm : modifiers (T0 + 40 * YEAR) alice (after thin_pool) = Ok s1)
    by (vm_compute; reflexivity).
  assert (Hce : UserAccount.collateralEnabled (account s1 alice) = true)
    by (vm_compute; reflexivity).
  assert (HS : getSupplyBalance alice s1 = Ok 1462659999971601088000)
    by (vm_compute; reflexivity).
  assert (HB : getBorrowBalance alice s1 = Ok 3199999999864960000)
    by (vm_compute; reflexivity).
  assert (Hw : withdraw (T0 + 40 * YEAR) alice (1400 * ONE_E18) (after thin_pool)
               = Err (RequireFailed "Native transfer failed"))
    by (vm_compute; reflexivity).
  assert (Hcond : 3199999999864960000
                  <= (1462659999971601088000 - 1400 * ONE_E18) * COLLATERAL_FACTOR K / 10000)
    by (vm_compute; discriminate).
  assert (HposB : 0 < 3199999999864960000) by reflexivity.
  assert (Hposa : 0 < 1400 * ONE_E18) by reflexivity.
  assert (Hle : 1400 * ONE_E18 <= 1462659999971601088000) by (vm_compute; discriminate).
  pose proof (H (after thin_pool) (T0 + 40 * YEAR) alice (1400 * ONE_E18) s1
                1462659999971601088000 3199999999864960000
                (after_reachable thin_pool) Hm Hce HS HB HposB Hposa Hle) as [_ Hback].
  rewrite Hw in Hback. discriminate (Hback Hcond).
Qed.

(** The outcomes of [withdraw] in [QieLendNative] for an indebted account
    with collateral enabled, with [S] and [B] its real supply and its
    index-adjusted debt after the modifiers. *)
Lemma native_withdraw_outcomes
    (now : N) (user : address) (amount S B : N) (s s1 : State) :
  modifiers now user s = Ok s1 ->
  amount <> 0 ->
  UserAccount.collateralEnabled (account s1 user) = true ->
  getSupplyBalance user s1 = Ok S -> amount <= S ->
  getBorrowBalance user s1 = Ok B -> 0 < B ->
  (S - amount) * 7000 <= MAX_UINT256 ->
  (isOk (withdraw now user amount s) = true
   <-> B <= (S - amount) * 7000 / 10000 /\
       amount <= totalSupply s1 /\ amount <= balance s1 /\ user ∉ refusing s1) /\
  ((S - amount) * 7000 / 10000 < B ->
   withdraw now user amount s = Err CollateralDisabled) /\
  (B <= (S - amount) * 7000 / 10000 -> totalSupply s1 < amount ->
   withdraw now user amount s = Err (Panic PANIC_ARITHMETIC)) /\
  (B <= (S - amount) * 7000 / 10000 -> amount <= totalSupply s1 ->
   balance s1 < amount \/ user ∈ refusing s1 ->
   withdraw now user amount s = Err (RequireFailed "Native transfer failed")).
Proof.
  intros Hm Hamt Hce HS Hle HB Hpos Hov.
  destruct (native_withdraw_collateral_check user amount s1 S B
              Hamt Hce HS Hle HB Hpos Hov) as (s2 & Hbal & Href & Hbody).
  unfold withdraw. rewrite Hm. cbn [bind]. rewrite Hbody. clear Hbody.
  destruct (N.ltb_spec ((S - amount) * 7000 / 10000) B) as [Hlt|Hge];
    cbn [bind require negb].
  { repeat split; intros;
      first [reflexivity | discriminate | lia | intuition (first [lia | discriminate])]. }
  destruct (N.le_gt_cases amount (totalSupply s1)) as [Hts|Hts].
  2:{ unfold sub. pose proof Hts as Hts'. apply N.leb_gt in Hts'. rewrite Hts'.
      cbn [bind].
      repeat split; intros;
        first [reflexivity | discriminate | lia | intuition (first [lia | discriminate])]. }
  rewrite sub_intro by exact Hts. cbn [bind].
  destruct (N.le_gt_cases amount (balance s1)) as [Hb|Hb].
  2:{ rewrite send_short by (rewrite Hbal; exact Hb).
      repeat split; intros;
        first [reflexivity | discriminate | lia | intuition (first [lia | discriminate])]. }
  destruct (decide (user ∈ refusing s1)) as [Hr|Hr].
  { rewrite send_refused by (rewrite Href; exact Hr).
    repeat split; intros;
      first [reflexivity | discriminate | lia | intuition (first [lia | discriminate])]. }
  rewrite send_intro by (rewrite ?Hbal, ?Href; assumption).
  repeat split; intros;
    first [reflexivity | assumption | lia | intuition (first [lia | discriminate])].
Qed.

(** C7, amended. In [QieLendNative], for an account with collateral enabled
    and a positive index-adjusted debt [B], and an amount within its real
    supply [S], [withdraw] succeeds iff the debt fits under the collateral
    factor of the remaining supply, the pool's [totalSupply] and the
    contract's balance cover the amount, and the caller accepts the payment.
    It reverts with [CollateralDisabled] when the debt does not fit, with
    the arithmetic panic when [totalSupply] is short, and with "Native
    transfer failed" when the balance is short or the caller refuses. In
    [QieLend] no account of a reachable storage stores a debt, so the
    collateral check of its [withdraw] is never reached. *)
Theorem withdraw_collateral_and_liquidity :
  (forall (now : N) (user : address) (amount S B : N) (s s1 : State),
     modifiers now user s = Ok s1 ->
     amount <> 0 ->
     UserAccount.collateralEnabled (account s1 user) = true ->
     getSupplyBalance user s1 = Ok S -> amount <= S ->
     getBorrowBalance user s1 = Ok B -> 0 < B ->
     (S - amount) * 7000 <= MAX_UINT256 ->
     (isOk (withdraw now user amount s) = true
      <-> B <= (S - amount) * 7000 / 10000 /\
          amount <= totalSupply s1 /\ amount <= balance s1 /\ user ∉ refusing s1) /\
     ((S - amount) * 7000 / 10000 < B ->
      withdraw now user amount s = Err CollateralDisabled) /\
     (B <= (S - amount) * 7000 / 10000 -> totalSupply s1 < amount ->
      withdraw now user amount s = Err (Panic PANIC_ARITHMETIC)) /\
     (B <= (S - amount) * 7000 / 10000 -> amount <= totalSupply s1 ->
      balance s1 < amount \/ user ∈ refusing s1 ->
      withdraw now user amount s = Err (RequireFailed "Native transfer failed"))) /\
  (forall (now : N) (user : address) (q q1 : State),
     QieLend.reachable q ->
     QieLend.modifiers now user q = Ok q1 ->
     UserAccount.borrowBalance (account q1 user) = 0 /\
     (UserAccount.collateralEnabled (account q1 user)
      && (0 <? UserAccount.borrowBalance (account q1 user))) = false).
Proof.
  split.
  - exact native_withdraw_outcomes.
  - intros now user q q1 Hr Hm.
    apply QieLendFacts.reachable_never_lent in Hr.
    pose proof (QieLendFacts.never_lent_modifiers _ _ _ _ Hr Hm) as (_ & _ & _ & Hacc).
    destruct (Hacc user) as [_ Hz]. rewrite Hz.
    split; [reflexivity | apply andb_false_r].
Qed.

(** A year into her loan Alice owes 534.99... against a real supply of
    1020.99...; withdrawing 100 leaves a limit of 644.69... and goes
    through. *)
Lemma withdraw_collateral_and_liquidity_witness :
  isOk (withdraw (T0 + YEAR) alice (100 * ONE_E18) (after open_position)) = true.
Proof.
  destruct (proj1 withdraw_collateral_and_liquidity
    (T0 + YEAR) alice (100 * ONE_E18)
    1020999999991830400000 534999999986384000000
    (after open_position)
    (ok_or init (modifiers (T0 + YEAR) alice (after open_position))))
    as [[_ Hok] _].
  - vm_compute; reflexivity.
  - discriminate.
  - vm_compute; reflexivity.
  - vm_compute; reflexivity.
  - vm_compute; discriminate.
  - vm_compute; reflexivity.
  - reflexivity.
  - vm_compute; discriminate.
  - apply Hok. repeat split.
    + vm_compute; discriminate.
    + vm_compute; discriminate.
    + vm_compute; discriminate.
    + assert (Href : refusing (ok_or init (modifiers (T0 + YEAR) alice (after open_position)))
                     = ∅) by (vm_compute; reflexivity).
      rewrite Href. apply not_elem_of_empty.
Defined.

(** The check is made on the index-adjusted debt. A year into her loan Alice
    owes 534.99... against a stored 500; a withdrawal that would leave a
    limit of 518 is refused. *)
Example native_withdraw_uses_accrued_debt :
  getBorrowBalance alice (accrued (T0 + YEAR) (after open_position))
    = Ok 534999999986384000000 /\
  UserAccount.borrowBalance (account (after open_position) alice)
    = 500000000000000000000 /\
  withdraw (T0 + YEAR) alice (281 * ONE_E18) (after open_position)
    = Err CollateralDisabled.
Proof. repeat split; vm_compute; reflexivity. Qed.

(** ** C8: supply then withdraw *)

(** An accrual at the timestamp of the last update changes nothing. *)
Lemma _accrueInterest_same_time (K0 : Constants) now s :
  lastUpdateTime s = now -> _accrueInterest K0 now s = Ok s.
Proof.
  intros <-. unfold _accrueInterest, sub.
  rewrite N.leb_refl, N.sub_diag. simpl. destruct s; reflexivity.
Qed.

Lemma _updateUserRewards_time (K0 : Constants) now user s s' :
  _updateUserRewards K0 now user s = Ok s' ->
  UserAccount.lastRewardUpdate (account s' user) = now.
Proof.
  unfold _updateUserRewards. intros H.
  destruct (UserAccount.supplyBalance (account s user) =? 0).
  - inversion H; subst. by rewrite account_set_account_eq.
  - apply bind_Ok in H. destruct H as (te & Hte & H).
    apply sub_Ok in Hte. destruct Hte as [-> Hle].
    destruct (N.eqb_spec (now - UserAccount.lastRewardUpdate (account s user)) 0)
      as [Hz|Hnz].
    + inversion H; subst. lia.
    + bind_inv H. inversion H; subst. by rewrite account_set_account_eq.
Qed.


Lemma modifiers_frame now user s s' :
  modifiers now user s = Ok s' ->
  balance s' = balance s /\ lastUpdateTime s' = now /\
  UserAccount.lastRewardUpdate (account s' user) = now.
Proof.
  unfold modifiers. intros H. bind_inv H.
  pose proof (_updateUserRewards_time _ _ _ _ _ H) as Ht.
  apply _accrueInterest_accounts in E. apply _updateUserRewards_frame in H.
  destruct E as (_ & _ & _ & Hb & Hl & _).
  destruct H as (_ & _ & _ & Hl' & _ & _ & _ & Hb' & _).
  repeat split; congruence.
Qed.

Lemma modifiers_refusing now user s s' :
  modifiers now user s = Ok s' -> refusing s' = refusing s.
Proof.
  unfold modifiers. intros H. bind_inv H.
  apply _accrueInterest_refusing in E. apply _updateUserRewards_refusing in H.
  congruence.
Qed.







(** ** C9: repaying *)

(** What [repay] computes. The real borrow it leaves is the remaining debt
    scaled down by [1e18 / borrowIndex]. *)
Lemma repay_body_effect user amount s s' ubb :
  repay_body user amount s = Ok s' ->
  userBorrowBalance (account s user) s = Ok ubb ->
  let repayAmount := N.min amount ubb in
  amount <> 0 /\
  totalBorrow s' = totalBorrow s - repayAmount /\ repayAmount <= totalBorrow s /\
  totalReserves s' = totalReserves s + (amount - repayAmount) /\
  UserAccount.borrowBalance (account s' user)
    = (ubb - repayAmount) * ONE_E18 / borrowIndex s /\
  UserAccount.borrowIndex (account s' user) = borrowIndex s /\
  borrowIndex s' = borrowIndex s.
Proof.
  unfold repay_body. intros H Hubb.
  apply bind_Ok in H. destruct H as (u & Hreq & H).
  rewrite Hubb in H. cbn [bind] in H.
  apply require_Ok in Hreq. apply negb_true_iff in Hreq. apply N.eqb_neq in Hreq.
  assert (Hmin : (if ubb <? amount then ubb else amount) = N.min amount ubb).
  { destruct (N.ltb_spec ubb amount); [rewrite N.min_r | rewrite N.min_l]; lia. }
  rewrite Hmin in H. simpl.
  apply bind_Ok in H. destruct H as (rest & Hrest & H).
  apply bind_Ok in H. destruct H as (r & Hr & H).
  apply bind_Ok in H. destruct H as (bb & Hbb & H).
  apply bind_Ok in H. destruct H as (tb & Htb & H).
  arith_inv. subst.
  destruct (N.ltb_spec (N.min amount ubb) amount) as [Hlt|Hge].
  - bind_inv H. inversion H; subst; clear H. arith_inv. subst.
    change (account (set_totalReserves ?a (set_totalBorrow ?b ?c)) user)
      with (account c user).
    rewrite account_set_account_eq. simpl. repeat split; auto.
  - inversion H; subst; clear H.
    change (account (set_totalBorrow ?b ?c) user) with (account c user).
    rewrite account_set_account_eq. simpl. repeat split; auto. lia.
Qed.

(** C9. The code at the failing input: Alice owes 534.99... and repays 100.
    [totalBorrow] drops by exactly 100, but her real borrow becomes
    406.54..., where the specification asks for 434.99...: the remaining
    debt is divided by the borrow index (1.0699...) once more. *)
Theorem repay_shrinks_remaining_debt :
  getBorrowBalance alice (accrued (T0 + YEAR) (after open_position))
    = Ok 534999999986384000000 /\
  totalBorrow (accrued (T0 + YEAR) (after open_position)) = 534999999986384000000 /\
  repay (T0 + YEAR) alice (100 * ONE_E18) (after open_position) = Ok (after repay_part) /\
  totalBorrow (after repay_part) = 434999999986384000000 /\
  getBorrowBalance alice (after repay_part) = Ok 406542056072387806795 /\
  totalReserves (after repay_part)
    = totalReserves (accrued (T0 + YEAR) (after open_position)).
Proof. repeat split; vm_compute; reflexivity. Qed.

(** ** C10: claiming rewards *)

(** C10. When [claimRewards] succeeds, the caller's [accruedRewards] is
    exactly 0 afterwards, and the contract paid
    [min(accruedRewards, address(this).balance)]: when the balance is strictly
    below the accrued total, the whole balance is paid and the shortfall is
    not kept in [accruedRewards]. *)
Theorem claimRewards_resets_accrued (now : N) (user : address) (s s' : State) :
  claimRewards now user s = Ok s' ->
  exists s1,
    modifiers now user s = Ok s1 /\
    0 < UserAccount.accruedRewards (account s1 user) /\
    UserAccount.accruedRewards (account s' user) = 0 /\
    balance s' = balance s1 - N.min (UserAccount.accruedRewards (account s1 user)) (balance s1) /\
    (balance s1 < UserAccount.accruedRewards (account s1 user) ->
     balance s' = 0 /\ UserAccount.accruedRewards (account s' user) = 0).
Proof.
  unfold claimRewards. intros H.
  apply bind_Ok in H. destruct H as (s1 & Hm & H).
  exists s1. split; [exact Hm|].
  unfold claimRewards_body in H.
  apply bind_Ok in H. destruct H as (u & Hreq & H).
  apply require_Ok in Hreq. apply N.ltb_lt in Hreq.
  apply send_Ok in H. destruct H as [Hle ->].
  split; [exact Hreq|].
  change (account (set_balance ?b ?t) user) with (account t user).
  rewrite account_set_account_eq. simpl.
  split; [reflexivity|].
  destruct (N.ltb_spec (balance s1) (UserAccount.accruedRewards (account s1 user)))
    as [Hlt|Hge].
  - rewrite N.min_r by lia. split; [reflexivity|]. intros _. split; [lia | reflexivity].
  - rewrite N.min_l by lia. split; [reflexivity|]. intros Hlt. lia.
Qed.

Lemma claimRewards_resets_accrued_witness :
  balance (after drained) < UserAccount.accruedRewards (account (after drained) alice) /\
  exists s1,
    modifiers (T0 + YEAR) alice (after drained) = Ok s1 /\
    0 < UserAccount.accruedRewards (account s1 alice) /\
    UserAccount.accruedRewards
      (account (after (drained ++ [mkTx (T0 + YEAR) alice ClaimRewards])) alice) = 0 /\
    balance (after (drained ++ [mkTx (T0 + YEAR) alice ClaimRewards]))
      = balance s1 - N.min (UserAccount.accruedRewards (account s1 alice)) (balance s1) /\
    (balance s1 < UserAccount.accruedRewards (account s1 alice) ->
     balance (after (drained ++ [mkTx (T0 + YEAR) alice ClaimRewards])) = 0 /\
     UserAccount.accruedRewards
       (account (after (drained ++ [mkTx (T0 + YEAR) alice ClaimRewards])) alice) = 0).
Proof.
  split; [vm_compute; reflexivity|].
  apply (claimRewards_resets_accrued (T0 + YEAR) alice (after drained)
           (after (drained ++ [mkTx (T0 + YEAR) alice ClaimRewards]))).
  vm_compute; reflexivity.
Defined.

(** * Further properties of the code *)

(** ** Arithmetic helpers *)

Lemma MAX_UINT256_value :
  MAX_UINT256 = 115792089237316195423570985008687907853269984665640564039457584007913129639935.
Proof. vm_compute; reflexivity. Qed.

Lemma _calculateBorrowRate_native u :
  u * 2000 <= MAX_UINT256 -> _calculateBorrowRate K u = Ok (native_rate u).
Proof.
  intros Hov. rewrite MAX_UINT256_value in Hov.
  unfold _calculateBorrowRate, native_rate.
  change (KINK_UTILIZATION K) with 8000. change (MULTIPLIER K) with 800.
  change (BASE_RATE K) with 200. change (JUMP_MULTIPLIER K) with 2000.
  destruct (N.leb_spec u 8000) as [Hk|Hk].
  - rewrite mul_intro by (rewrite MAX_UINT256_value; lia). cbn [bind].
    rewrite div_intro by discriminate. cbn [bind].
    assert (E : u * 800 / 8000 = u / 10).
    { change 8000 with (10 * 800). apply N.Div0.div_mul_cancel_r; discriminate. }
    rewrite E. apply add_intro. rewrite MAX_UINT256_value.
    pose proof (N.Div0.div_le_upper_bound u 10 u). lia.
  - rewrite sub_intro by lia. cbn [bind].
    rewrite add_intro by (rewrite MAX_UINT256_value; lia). cbn [bind].
    rewrite mul_intro by (rewrite MAX_UINT256_value; lia). cbn [bind].
    rewrite sub_intro by lia. cbn [bind].
    change (10000 - 8000) with 2000.
    rewrite div_intro by discriminate. cbn [bind].
    rewrite N.div_mul by discriminate.
    rewrite add_intro by (rewrite MAX_UINT256_value; lia).
    f_equal. lia.
Qed.

Lemma native_rate_mono u u' : u <= u' -> native_rate u <= native_rate u'.
Proof.
  intros Hle. unfold native_rate.
  assert (Hm : u / 10 <= u' / 10) by (apply N.Div0.div_le_mono; exact Hle).
  assert (Hu : u / 10 * 10 <= u) by (rewrite N.mul_comm; apply N.Div0.mul_div_le).
  assert (Hu' : u' / 10 * 10 <= u') by (rewrite N.mul_comm; apply N.Div0.mul_div_le).
  set (q := u / 10) in *. set (q' := u' / 10) in *. clearbody q q'.
  destruct (N.leb_spec u 8000); destruct (N.leb_spec u' 8000); lia.
Qed.

Lemma native_rate_bounds u :
  200 <= native_rate u /\ (u <= 10000 -> native_rate u <= 3000).
Proof.
  unfold native_rate.
  assert (Hu : u / 10 * 10 <= u) by (rewrite N.mul_comm; apply N.Div0.mul_div_le).
  set (q := u / 10) in *. clearbody q.
  destruct (N.leb_spec u 8000); split; lia.
Qed.

(** X1. The borrow rate never fails on a utilization that leaves room for
    the multiplication, is at least the base rate of 200 basis points, does
    not decrease when the utilization grows, and stays within 3000 basis
    points up to full utilization. *)
Theorem borrow_rate_monotone (u u' : N) :
  u <= u' -> u' * 2000 <= MAX_UINT256 ->
  exists r r',
    _calculateBorrowRate K u = Ok r /\ _calculateBorrowRate K u' = Ok r' /\
    200 <= r /\ r <= r' /\ (u' <= 10000 -> r' <= 3000) /\
    r = (if u <=? 8000 then 200 + u / 10 else u - 7000).
Proof.
  intros Hle Hov.
  exists (native_rate u), (native_rate u').
  split; [apply _calculateBorrowRate_native; nia|].
  split; [apply _calculateBorrowRate_native; exact Hov|].
  split; [apply native_rate_bounds|].
  split; [apply native_rate_mono; exact Hle|].
  split; [apply native_rate_bounds | reflexivity].
Qed.

Lemma borrow_rate_monotone_witness :
  exists r r',
    _calculateBorrowRate K 8000 = Ok r /\ _calculateBorrowRate K 9000 = Ok r' /\
    200 <= r /\ r <= r' /\ (9000 <= 10000 -> r' <= 3000) /\
    r = (if 8000 <=? 8000 then 200 + 8000 / 10 else 8000 - 7000).
Proof.
  apply (borrow_rate_monotone 8000 9000); vm_compute; discriminate.
Defined.

(** X2. The APY views never fail on a borrowed total that leaves room for
    the arithmetic: the borrow APY is at least 200 basis points (at most 3000
    while no more is borrowed than supplied), the supply APY is 60% of it,
    rounded down, and with an empty pool both views return the base rate
    200. *)
Theorem apy_views (s : State) :
  totalBorrow s * 100000000 <= MAX_UINT256 ->
  exists b a,
    getBorrowAPY K s = Ok b /\ getSupplyAPY K s = Ok a /\
    200 <= b /\ a <= b /\
    (totalSupply s = 0 -> a = 200 /\ b = 200) /\
    (totalSupply s <> 0 -> a = b * 6000 / 10000) /\
    (totalSupply s <> 0 -> totalBorrow s <= totalSupply s -> b <= 3000).
Proof.
  intros Hov. unfold getBorrowAPY, getSupplyAPY.
  change (BASE_RATE K) with 200. change (RESERVE_FACTOR K) with 4000.
  destruct (N.eqb_spec (totalSupply s) 0) as [Hz|Hnz].
  - exists 200, 200. repeat split; auto; try lia; contradiction.
  - assert (Hm : totalBorrow s * 10000 <= MAX_UINT256) by lia.
    rewrite mul_intro by exact Hm. cbn [bind].
    rewrite div_intro by exact Hnz. cbn [bind].
    set (u := totalBorrow s * 10000 / totalSupply s).
    assert (Hu : u <= totalBorrow s * 10000).
    { unfold u. apply N.Div0.div_le_upper_bound. nia. }
    rewrite _calculateBorrowRate_native by lia. cbn [bind].
    change (sub 10000 4000) with (Ok (A:=N) 6000). cbn [bind].
    destruct (native_rate_bounds u) as [Hlo Hhi].
    assert (Hr : native_rate u <= u + 200).
    { unfold native_rate.
      assert (Hq : u / 10 * 10 <= u) by (rewrite N.mul_comm; apply N.Div0.mul_div_le).
      set (q := u / 10) in *. clearbody q.
      destruct (N.leb_spec u 8000); lia. }
    assert (Hbig : 1200000 <= MAX_UINT256) by (rewrite MAX_UINT256_value; lia).
    rewrite mul_intro by lia. cbn [bind].
    rewrite div_intro by discriminate.
    exists (native_rate u), (native_rate u * 6000 / 10000).
    repeat split; auto; try contradiction.
    + apply N.Div0.div_le_upper_bound. lia.
    + intros _ Hle. apply Hhi. unfold u.
      apply N.Div0.div_le_upper_bound. nia.
Qed.

Lemma apy_views_witness :
  exists b a,
    getBorrowAPY K (after open_position) = Ok b /\
    getSupplyAPY K (after open_position) = Ok a /\
    200 <= b /\ a <= b /\
    (totalSupply (after open_position) = 0 -> a = 200 /\ b = 200) /\
    (totalSupply (after open_position) <> 0 -> a = b * 6000 / 10000) /\
    (totalSupply (after open_position) <> 0 ->
     totalBorrow (after open_position) <= totalSupply (after open_position) -> b <= 3000).
Proof.
  apply (apy_views (after open_position)). vm_compute; discriminate.
Defined.

(** ** Indices, clock and accounts across transactions *)

(** ** Frames of the function bodies *)

Ltac frame_solve :=
  unfold body_frame; repeat split; try reflexivity;
  let a := fresh "a" in let Ha := fresh "Ha" in
  intros a Ha; unfold account; simpl;
  rewrite lookup_insert_ne by congruence; reflexivity.

Lemma supplyNative_body_frame u v s s' :
  supplyNative_body u v s = Ok s' -> body_frame u s s'.
Proof.
  unfold supplyNative_body. intros H. bind_inv H. inversion H; subst. frame_solve.
Qed.

Lemma withdraw_body_frame u v s s' :
  withdraw_body u v s = Ok s' -> body_frame u s s'.
Proof.
  unfold withdraw_body. intros H. bind_inv H.
  apply send_Ok in H. destruct H as [_ ->]. frame_solve.
Qed.

Lemma borrow_body_frame u v s s' :
  borrow_body u v s = Ok s' -> body_frame u s s'.
Proof.
  unfold borrow_body. intros H. bind_inv H.
  apply send_Ok in H. destruct H as [_ ->]. frame_solve.
Qed.

Lemma repay_body_frame u v s s' :
  repay_body u v s = Ok s' -> body_frame u s s'.
Proof.
  unfold repay_body. intros H. bind_inv H.
  destruct (_ <? v) in H.
  - bind_inv H. inversion H; subst. frame_solve.
  - inversion H; subst. frame_solve.
Qed.

Lemma setCollateralEnabled_body_frame u en s s' :
  setCollateralEnabled_body u en s = Ok s' -> body_frame u s s'.
Proof.
  unfold setCollateralEnabled_body. intros H. bind_inv H.
  inversion H; subst. frame_solve.
Qed.

Lemma claimRewards_body_frame now u s s' :
  claimRewards_body now u s = Ok s' -> body_frame u s s'.
Proof.
  unfold claimRewards_body. intros H. bind_inv H.
  apply send_Ok in H. destruct H as [_ ->]. frame_solve.
Qed.

Lemma liquidate_body_frame u b v s s' :
  liquidate_body u b v s = Ok s' -> body_frame b s s'.
Proof.
  unfold liquidate_body. intros H. bind_inv H.
  apply send_Ok in H. destruct H as [_ ->]. frame_solve.
Qed.

Lemma _accrueInterest_step u now s s' :
  _accrueInterest K now s = Ok s' -> step_frame u s s'.
Proof.
  intros H. pose proof (_accrueInterest_accounts K now s s' H) as (Ha & Hb & He & _ & Hl & Hl').
  unfold step_frame. repeat split; try lia.
  - intros Hsi. unfold _accrueInterest in H.
    apply bind_Ok in H. destruct H as (te & _ & H).
    destruct (_ || _).
    + inversion H; subst; simpl. exact Hsi.
    + bind_inv H. inversion H; subst; reflexivity.
  - intros a _. unfold account. rewrite Ha. reflexivity.
Qed.

Lemma step_frame_trans u s s1 s2 :
  step_frame u s s1 -> step_frame u s1 s2 -> step_frame u s s2.
Proof.
  intros (A1 & A2 & A3 & A4 & A5) (B1 & B2 & B3 & B4 & B5).
  unfold step_frame. repeat split; try lia; auto.
  intros a Ha. rewrite B5, A5; auto.
Qed.

Lemma same_but_rewards_step u s s' : same_but_rewards u s s' -> step_frame u s s'.
Proof.
  intros (_ & _ & _ & Hl & He & Hs & Hb & _ & Hne & _).
  unfold step_frame. rewrite Hl, He, Hs, Hb. repeat split; auto; lia.
Qed.

Lemma body_frame_step u s s' : body_frame u s s' -> step_frame u s s'.
Proof.
  intros (He & Hs & Hb & Hl & Hne).
  unfold step_frame. rewrite Hl, He, Hs, Hb. repeat split; auto; lia.
Qed.

Lemma modifiers_step u now s s' : modifiers now u s = Ok s' -> step_frame u s s'.
Proof.
  unfold modifiers. intros H. bind_inv H.
  eapply step_frame_trans; [eapply _accrueInterest_step; exact E|].
  apply same_but_rewards_step. eapply _updateUserRewards_frame; exact H.
Qed.

Lemma receive_value_step u v s : step_frame u s (receive_value v s).
Proof. unfold step_frame. simpl. repeat split; auto; lia. Qed.

Lemma execute_step t s s' : execute t s = Ok s' -> step_frame (affected t) s s'.
Proof.
  unfold execute, affected. intros H.
  destruct (action t) as [v|v|v|v|en| |b v|v].
  - unfold supplyNative in H. bind_inv H.
    eapply step_frame_trans; [apply receive_value_step|].
    eapply step_frame_trans; [eapply modifiers_step; exact E|].
    apply body_frame_step. eapply supplyNative_body_frame; exact H.
  - unfold withdraw in H. bind_inv H.
    eapply step_frame_trans; [eapply modifiers_step; exact E|].
    apply body_frame_step. eapply withdraw_body_frame; exact H.
  - unfold borrow in H. bind_inv H.
    eapply step_frame_trans; [eapply modifiers_step; exact E|].
    apply body_frame_step. eapply borrow_body_frame; exact H.
  - unfold repay in H. bind_inv H.
    eapply step_frame_trans; [apply receive_value_step|].
    eapply step_frame_trans; [eapply modifiers_step; exact E|].
    apply body_frame_step. eapply repay_body_frame; exact H.
  - unfold setCollateralEnabled in H. bind_inv H.
    eapply step_frame_trans; [eapply modifiers_step; exact E|].
    apply body_frame_step. eapply setCollateralEnabled_body_frame; exact H.
  - unfold claimRewards in H. bind_inv H.
    eapply step_frame_trans; [eapply modifiers_step; exact E|].
    apply body_frame_step. eapply claimRewards_body_frame; exact H.
  - unfold liquidate in H. bind_inv H.
    eapply step_frame_trans; [apply receive_value_step|].
    eapply step_frame_trans; [eapply _accrueInterest_step; exact E|].
    apply body_frame_step. eapply liquidate_body_frame; exact H.
  - inversion H; subst. apply receive_value_step.
Qed.

Lemma reachable_index_inv s : reachable s -> index_inv s.
Proof.
  induction 1 as [|s t s' Hr IH Hwf Ht Hx|s R Hr IH].
  - unfold index_inv; simpl. repeat split; lia.
  - destruct IH as (He & Hb & Hs).
    apply execute_step in Hx. destruct Hx as (A1 & A2 & _ & A4 & _).
    unfold index_inv. repeat split; auto; lia.
  - exact IH.
Qed.

(** X3. Across every successful transaction on a reachable storage the
    exchange rate and the borrow index do not decrease and are at least
    [1e18], [supplyIndex] equals [exchangeRate], and [lastUpdateTime] does
    not go back. *)
Theorem indices_never_decrease (t : tx) (s s' : State) :
  reachable s -> execute t s = Ok s' ->
  ONE_E18 <= exchangeRate s /\ exchangeRate s <= exchangeRate s' /\
  ONE_E18 <= borrowIndex s /\ borrowIndex s <= borrowIndex s' /\
  supplyIndex s' = exchangeRate s' /\
  lastUpdateTime s <= lastUpdateTime s'.
Proof.
  intros Hr Hx. destruct (reachable_index_inv s Hr) as (He & Hb & Hs).
  apply execute_step in Hx. destruct Hx as (A1 & A2 & A3 & A4 & _).
  repeat split; auto.
Qed.

Lemma indices_never_decrease_witness :
  ONE_E18 <= exchangeRate (after open_position) /\
  exchangeRate (after open_position) <= exchangeRate (after borrow_more) /\
  ONE_E18 <= borrowIndex (after open_position) /\
  borrowIndex (after open_position) <= borrowIndex (after borrow_more) /\
  supplyIndex (after borrow_more) = exchangeRate (after borrow_more) /\
  lastUpdateTime (after open_position) <= lastUpdateTime (after borrow_more).
Proof.
  apply (indices_never_decrease (mkTx (T0 + YEAR) alice (Borrow (10 * ONE_E18)))
           (after open_position) (after borrow_more) (after_reachable open_position)).
  vm_compute; reflexivity.
Defined.

(** X4. A successful transaction leaves every account untouched except one:
    the borrower for [liquidate] (the liquidator's own record is not written),
    the sender otherwise. *)
Theorem other_accounts_untouched (t : tx) (s s' : State) (a : address) :
  execute t s = Ok s' -> a <> affected t -> account s' a = account s a.
Proof.
  intros Hx Ha. apply execute_step in Hx.
  destruct Hx as (_ & _ & _ & _ & H). apply H. exact Ha.
Qed.

Lemma other_accounts_untouched_witness :
  account (after (tiny_loan ++ [mkTx (T0 + 8 * YEAR) bob (Liquidate alice 1)])) bob
  = account (after tiny_loan) bob.
Proof.
  apply (other_accounts_untouched (mkTx (T0 + 8 * YEAR) bob (Liquidate alice 1))
           (after tiny_loan)
           (after (tiny_loan ++ [mkTx (T0 + 8 * YEAR) bob (Liquidate alice 1)])) bob).
  - vm_compute; reflexivity.
  - vm_compute; discriminate.
Defined.

(** ** Accrual and reward sync *)

Lemma UserAccount_eta (a : UserAccount.t) :
  UserAccount.mk (UserAccount.supplyBalance a) (UserAccount.borrowBalance a)
    (UserAccount.supplyIndex a) (UserAccount.borrowIndex a)
    (UserAccount.collateralEnabled a) (UserAccount.accruedRewards a)
    (UserAccount.lastRewardUpdate a) = a.
Proof. destruct a; reflexivity. Qed.

Lemma set_account_id u acc s :
  accounts s !! u = Some acc -> set_account u acc s = s.
Proof.
  intros H. destruct s as [ts tb tr lu er si bi accs bal]. unfold set_account; simpl in *.
  f_equal. apply insert_id. exact H.
Qed.

Lemma set_account_written u acc s :
  accounts (set_account u acc s) !! u = Some (account (set_account u acc s) u).
Proof.
  rewrite account_set_account_eq. unfold set_account; simpl. apply lookup_insert_eq.
Qed.

(** After a reward sync, an account without supply has its record written. *)
Lemma _updateUserRewards_written (K0 : Constants) now u s s' :
  _updateUserRewards K0 now u s = Ok s' ->
  UserAccount.supplyBalance (account s' u) = 0 ->
  accounts s' !! u = Some (account s' u).
Proof.
  unfold _updateUserRewards. intros H Hz.
  destruct (N.eqb_spec (UserAccount.supplyBalance (account s u)) 0) as [E|E].
  - inversion H; subst. apply set_account_written.
  - apply bind_Ok in H. destruct H as (te & _ & H).
    destruct (te =? 0).
    + inversion H; subst. contradiction.
    + bind_inv H. inversion H; subst. apply set_account_written.
Qed.

(** X5. Accrual and reward sync are idempotent at one timestamp: after the
    modifiers have run, running [_accrueInterest], or both modifiers, again
    at the same timestamp returns the same storage. *)
Theorem modifiers_idempotent (now : N) (u : address) (s s1 : State) :
  modifiers now u s = Ok s1 ->
  _accrueInterest K now s1 = Ok s1 /\ modifiers now u s1 = Ok s1.
Proof.
  intros H. destruct (modifiers_frame _ _ _ _ H) as (_ & Hl & Hr).
  assert (Ha : _accrueInterest K now s1 = Ok s1) by (apply _accrueInterest_same_time; exact Hl).
  split; [exact Ha|].
  unfold modifiers. rewrite Ha. cbn [bind].
  unfold modifiers in H. apply bind_Ok in H. destruct H as (s0 & _ & H).
  pose proof (_updateUserRewards_written K now u s0 s1 H) as Hw.
  unfold _updateUserRewards.
  destruct (N.eqb_spec (UserAccount.supplyBalance (account s1 u)) 0) as [E|E].
  - rewrite <- Hr. rewrite UserAccount_eta. f_equal. apply set_account_id. apply Hw. exact E.
  - unfold sub. rewrite Hr, N.leb_refl, N.sub_diag. reflexivity.
Qed.

Lemma modifiers_idempotent_witness :
  _accrueInterest K (T0 + YEAR)
    (ok_or init (modifiers (T0 + YEAR) alice (after open_position)))
  = Ok (ok_or init (modifiers (T0 + YEAR) alice (after open_position))) /\
  modifiers (T0 + YEAR) alice
    (ok_or init (modifiers (T0 + YEAR) alice (after open_position)))
  = Ok (ok_or init (modifiers (T0 + YEAR) alice (after open_position))).
Proof.
  apply (modifiers_idempotent (T0 + YEAR) alice (after open_position)
           (ok_or init (modifiers (T0 + YEAR) alice (after open_position)))).
  vm_compute; reflexivity.
Defined.

Lemma mul_0_l_Ok b : mul 0 b = Ok 0.
Proof. unfold mul. rewrite N.mul_0_l. reflexivity. Qed.

Lemma div_0_l_Ok b : b <> 0 -> div 0 b = Ok 0.
Proof. intros H. rewrite div_intro by exact H. by rewrite N.Div0.div_0_l. Qed.

(** X6. With nothing borrowed, [_accrueInterest] cannot fail (for a clock
    that did not go back) and only stamps the time: totals, reserves,
    exchange rate, borrow index, accounts and balance stay as they are. *)
Theorem accrual_without_debt (now : N) (s : State) :
  totalBorrow s = 0 -> lastUpdateTime s <= now ->
  totalSupply s <= MAX_UINT256 -> totalReserves s <= MAX_UINT256 ->
  exchangeRate s <= MAX_UINT256 ->
  exists s1,
    _accrueInterest K now s = Ok s1 /\
    totalSupply s1 = totalSupply s /\ totalBorrow s1 = 0 /\
    totalReserves s1 = totalReserves s /\
    exchangeRate s1 = exchangeRate s /\ borrowIndex s1 = borrowIndex s /\
    lastUpdateTime s1 = now /\ accounts s1 = accounts s /\ balance s1 = balance s.
Proof.
  intros Hb Hl Hts Htr Her. unfold _accrueInterest.
  rewrite sub_intro by exact Hl. cbn [bind].
  destruct ((now - lastUpdateTime s =? 0) || (totalSupply s =? 0)) eqn:Hc.
  - eexists. split; [reflexivity|]. simpl. repeat split; auto.
  - apply orb_false_iff in Hc. destruct Hc as [_ Hs]. apply N.eqb_neq in Hs.
    assert (Hp : (0 <? totalSupply s) = true) by (apply N.ltb_lt; lia).
    rewrite Hb, Hp. cbn [N.ltb N.compare bind].
    change (_calculateBorrowRate K (0 * 10000 / ONE_E18)) with (Ok (A:=N) 200).
    change (mul 200 ONE_E18) with (Ok (A:=N) 200000000000000000000).
    change (mul 10000 (SECONDS_PER_YEAR K)) with (Ok (A:=N) 315360000000).
    change (div 200000000000000000000 315360000000) with (Ok (A:=N) 634195839).
    repeat (progress (rewrite ?mul_0_l_Ok, ?div_0_l_Ok by discriminate; cbn [bind])).
    change (_calculateBorrowRate K 0) with (Ok (A:=N) 200). cbn [bind].
    change (mul 200 ONE_E18) with (Ok (A:=N) 200000000000000000000). cbn [bind].
    change (mul 10000 (SECONDS_PER_YEAR K)) with (Ok (A:=N) 315360000000). cbn [bind].
    change (div 200000000000000000000 315360000000) with (Ok (A:=N) 634195839). cbn [bind].
    repeat (progress (rewrite ?mul_0_l_Ok, ?div_0_l_Ok by discriminate; cbn [bind])).
    change (sub 0 0) with (Ok (A:=N) 0). cbn [bind].
    repeat (progress (rewrite ?mul_0_l_Ok; cbn [bind])).
    rewrite (div_0_l_Ok (totalSupply s)) by exact Hs. cbn [bind].
    rewrite add_intro by lia. cbn [bind].
    rewrite add_intro by lia. cbn [bind].
    change (add 0 0) with (Ok (A:=N) 0). cbn [bind].
    rewrite add_intro by lia. cbn [bind].
    eexists. split; [reflexivity|]. simpl.
    rewrite !N.add_0_r. repeat split; auto.
Qed.

Lemma accrual_without_debt_witness :
  exists s1,
    _accrueInterest K (T0 + YEAR) (after [mkTx T0 alice (SupplyNative ONE_E18)]) = Ok s1 /\
    totalSupply s1 = totalSupply (after [mkTx T0 alice (SupplyNative ONE_E18)]) /\
    totalBorrow s1 = 0 /\
    totalReserves s1 = totalReserves (after [mkTx T0 alice (SupplyNative ONE_E18)]) /\
    exchangeRate s1 = exchangeRate (after [mkTx T0 alice (SupplyNative ONE_E18)]) /\
    borrowIndex s1 = borrowIndex (after [mkTx T0 alice (SupplyNative ONE_E18)]) /\
    lastUpdateTime s1 = T0 + YEAR /\
    accounts s1 = accounts (after [mkTx T0 alice (SupplyNative ONE_E18)]) /\
    balance s1 = balance (after [mkTx T0 alice (SupplyNative ONE_E18)]).
Proof.
  apply (accrual_without_debt (T0 + YEAR) (after [mkTx T0 alice (SupplyNative ONE_E18)]));
    vm_compute; first [reflexivity | discriminate].
Defined.

(** ** Input validation and guards *)

(** X7. A zero amount is refused with [InvalidAmount] by the five functions
    that take one ([supplyNative], [withdraw], [borrow], [repay],
    [liquidate]), once their modifiers have run. *)
Theorem zero_amount_refused (now : N) (u b : address) (s s1 : State) :
  modifiers now u s = Ok s1 ->
  supplyNative now u 0 s = Err InvalidAmount /\
  withdraw now u 0 s = Err InvalidAmount /\
  borrow now u 0 s = Err InvalidAmount /\
  repay now u 0 s = Err InvalidAmount /\
  liquidate now u b 0 s = Err InvalidAmount.
Proof.
  intros Hm.
  assert (Ha : exists s2, _accrueInterest K now s = Ok s2).
  { unfold modifiers in Hm. apply bind_Ok in Hm. destruct Hm as (s2 & Ha & _). eauto. }
  destruct Ha as (s2 & Ha).
  assert (Hr : receive_value 0 s = s).
  { unfold receive_value, set_balance. rewrite N.add_0_r. destruct s; reflexivity. }
  unfold supplyNative, withdraw, borrow, repay, liquidate.
  rewrite Hr, Hm, Ha. cbn [bind]. repeat split; reflexivity.
Qed.

Lemma zero_amount_refused_witness :
  supplyNative T0 alice 0 init = Err InvalidAmount /\
  withdraw T0 alice 0 init = Err InvalidAmount /\
  borrow T0 alice 0 init = Err InvalidAmount /\
  repay T0 alice 0 init = Err InvalidAmount /\
  liquidate T0 alice bob 0 init = Err InvalidAmount.
Proof.
  apply (zero_amount_refused T0 alice bob init (ok_or init (modifiers T0 alice init))).
  vm_compute; reflexivity.
Defined.

(** X8. With a timestamp before [lastUpdateTime] each of the seven
    state-changing functions (the ones that carry [updateInterest]) reverts
    with the arithmetic panic of [block.timestamp - lastUpdateTime]. The
    plain [receive] is not among them, and neither are the views, which do
    not accrue. *)
Theorem clock_cannot_go_back (t : tx) (s : State) :
  timestamp t < lastUpdateTime s ->
  (forall v, action t <> Receive v) ->
  execute t s = Err (Panic PANIC_ARITHMETIC).
Proof.
  intros Hlt Hnr.
  assert (Ha : forall s0, lastUpdateTime s0 = lastUpdateTime s ->
             _accrueInterest K (timestamp t) s0 = Err (Panic PANIC_ARITHMETIC)).
  { intros s0 Hs0. unfold _accrueInterest, sub. rewrite Hs0.
    destruct (N.leb_spec (lastUpdateTime s) (timestamp t)); [lia | reflexivity]. }
  unfold execute.
  destruct (action t) as [v|v|v|v|en| |b v|v];
    unfold supplyNative, withdraw, borrow, repay, setCollateralEnabled, claimRewards,
           liquidate, modifiers;
    try (rewrite Ha by reflexivity; reflexivity).
  exfalso. exact (Hnr v eq_refl).
Qed.

Lemma clock_cannot_go_back_witness :
  execute (mkTx 50 bob (SupplyNative 1)) (after open_position) = Err (Panic PANIC_ARITHMETIC).
Proof.
  apply (clock_cannot_go_back (mkTx 50 bob (SupplyNative 1)) (after open_position)).
  - vm_compute; reflexivity.
  - intros v; discriminate.
Defined.

(** X9. Once the modifiers have run, [claimRewards] succeeds iff the
    caller's accrued rewards are positive and the caller accepts the
    payment, whatever the contract holds (the payout is capped at the
    balance). With nothing accrued it fails with "No rewards"; with rewards
    accrued and a caller that refuses the payment, with "Reward transfer
    failed". *)
Theorem claimRewards_iff_accrued (now : N) (u : address) (s s1 : State) :
  modifiers now u s = Ok s1 ->
  (isOk (claimRewards now u s) = true
   <-> 0 < UserAccount.accruedRewards (account s1 u) /\ u ∉ refusing s) /\
  (UserAccount.accruedRewards (account s1 u) = 0 ->
   claimRewards now u s = Err (RequireFailed "No rewards")) /\
  (0 < UserAccount.accruedRewards (account s1 u) -> u ∈ refusing s ->
   claimRewards now u s = Err (RequireFailed "Reward transfer failed")).
Proof.
  intros Hm. pose proof (modifiers_refusing _ _ _ _ Hm) as Href.
  unfold claimRewards. rewrite Hm. cbn [bind]. unfold claimRewards_body.
  destruct (N.ltb_spec 0 (UserAccount.accruedRewards (account s1 u))) as [Hp|Hz];
    cbn [bind require].
  - destruct (decide (u ∈ refusing s)) as [Hr|Hr].
    + rewrite send_refused by (simpl; rewrite Href; exact Hr).
      split; [split; [discriminate | intros [_ Hc]; done]|].
      split; [lia | reflexivity].
    + rewrite send_intro.
      * split; [split; [intros _; split; assumption | reflexivity]|].
        split; [lia | intros _ Hc; done].
      * match goal with |- context [if ?c then _ else _] => destruct c eqn:Hc end.
        -- apply N.le_refl.
        -- apply N.ltb_ge in Hc. exact Hc.
      * simpl. rewrite Href. exact Hr.
  - split; [split; [discriminate | intros [Hc _]; lia]|].
    split; [reflexivity | lia].
Qed.

(** A year after opening her position Alice has rewards to claim, and she
    accepts the payment. *)
Lemma claimRewards_iff_accrued_witness :
  isOk (claimRewards (T0 + YEAR) alice (after open_position)) = true.
Proof.
  destruct (claimRewards_iff_accrued (T0 + YEAR) alice (after open_position)
              (ok_or init (modifiers (T0 + YEAR) alice (after open_position))))
    as [[_ Hok] _].
  - vm_compute; reflexivity.
  - apply Hok. split.
    + vm_compute; reflexivity.
    + assert (Href : refusing (after open_position) = ∅) by (vm_compute; reflexivity).
      rewrite Href. apply not_elem_of_empty.
Defined.

(** X10. On a reachable storage, enabling collateral always succeeds, and
    disabling it succeeds iff the account stores no debt; with a stored debt
    it fails with "Repay before disabling collateral" (absent overflow of
    [borrowBalance * borrowIndex]). *)
Theorem setCollateralEnabled_iff_no_debt (now : N) (u : address) (s s1 : State) :
  reachable s ->
  modifiers now u s = Ok s1 ->
  (exists s', setCollateralEnabled now u true s = Ok s' /\
              UserAccount.collateralEnabled (account s' u) = true) /\
  (isOk (setCollateralEnabled now u false s) = true
   <-> UserAccount.borrowBalance (account s1 u) = 0) /\
  (UserAccount.borrowBalance (account s1 u) <> 0 ->
   UserAccount.borrowBalance (account s1 u) * borrowIndex s1 <= MAX_UINT256 ->
   setCollateralEnabled now u false s = Err (RequireFailed "Repay before disabling collateral")).
Proof.
  intros Hr Hm.
  assert (HI : debt_inv s1).
  { eapply debt_inv_modifiers; [|exact Hm]. by apply reachable_debt_inv. }
  destruct HI as [Hpos HI]. destruct (HI u) as (Hle & _ & Hnz).
  unfold setCollateralEnabled. rewrite Hm. cbn [bind].
  unfold setCollateralEnabled_body. cbn [negb andb bind].
  split; [|split].
  - eexists. split; [reflexivity|]. rewrite account_set_account_eq. reflexivity.
  - destruct (N.ltb_spec 0 (UserAccount.borrowBalance (account s1 u))) as [Hp|Hz].
    + split; [|lia]. intros Hok. exfalso.
      destruct (userBorrowBalance (account s1 u) s1) as [ubb|e] eqn:Hu; [|discriminate].
      cbn [bind] in Hok.
      apply userBorrowBalance_ge in Hu; [|exact Hle].
      assert (Hne : (ubb =? 0) = false) by (apply N.eqb_neq; lia).
      rewrite Hne in Hok. discriminate.
    + split; [intros _; lia | reflexivity].
  - intros Hbb Hov.
    assert (Hp : (0 <? UserAccount.borrowBalance (account s1 u)) = true)
      by (apply N.ltb_lt; lia).
    rewrite Hp. unfold userBorrowBalance.
    apply N.eqb_neq in Hbb. rewrite Hbb.
    rewrite mul_intro by exact Hov. cbn [bind].
    assert (Hidx : borrowIdx (account s1 u) s1 <> 0).
    { unfold borrowIdx. destruct (N.eqb_spec (UserAccount.borrowIndex (account s1 u)) 0); lia. }
    rewrite div_intro by exact Hidx. cbn [bind].
    assert (Hq : UserAccount.borrowBalance (account s1 u) * borrowIndex s1
                 / borrowIdx (account s1 u) s1 <> 0).
    { apply N.eqb_neq in Hbb.
      assert (Hb : borrowIdx (account s1 u) s1 <= borrowIndex s1).
      { unfold borrowIdx. destruct (N.eqb_spec (UserAccount.borrowIndex (account s1 u)) 0); lia. }
      assert (1 <= UserAccount.borrowBalance (account s1 u) * borrowIndex s1
                   / borrowIdx (account s1 u) s1); [|lia].
      apply N.div_le_lower_bound; [exact Hidx|]. nia. }
    apply N.eqb_neq in Hq. rewrite Hq. reflexivity.
Qed.

Lemma setCollateralEnabled_iff_no_debt_witness :
  setCollateralEnabled (T0 + YEAR) alice false (after open_position)
  = Err (RequireFailed "Repay before disabling collateral").
Proof.
  refine (proj2 (proj2 (setCollateralEnabled_iff_no_debt (T0 + YEAR) alice (after open_position)
           (match modifiers (T0 + YEAR) alice (after open_position)
            with Ok s => s | Err _ => init end)
           (after_reachable open_position) _)) _ _).
  - vm_compute; reflexivity.
  - vm_compute; discriminate.
  - vm_compute; discriminate.
Defined.

(** X11. When the account has no supply, or no time has passed since its
    last sync, [getAccruedRewards] and [_updateUserRewards] agree: both give
    the stored [accruedRewards]. *)
Theorem rewards_view_matches_sync_when_idle (now : N) (u : address) (s : State) :
  UserAccount.supplyBalance (account s u) = 0 \/
  UserAccount.lastRewardUpdate (account s u) = now ->
  getAccruedRewards K now u s = Ok (UserAccount.accruedRewards (account s u)) /\
  rewards_after_sync now u s = Ok (UserAccount.accruedRewards (account s u)).
Proof.
  intros H. unfold getAccruedRewards, rewards_after_sync, _updateUserRewards.
  destruct (N.eqb_spec (UserAccount.supplyBalance (account s u)) 0) as [E|E].
  - split; [reflexivity|]. cbn [bind]. rewrite account_set_account_eq. reflexivity.
  - destruct H as [H|H]; [contradiction|].
    unfold sub. rewrite H, N.leb_refl, N.sub_diag. cbn [bind N.eqb]. split; reflexivity.
Qed.

Lemma rewards_view_matches_sync_when_idle_witness :
  getAccruedRewards K T0 alice (after open_position)
    = Ok (UserAccount.accruedRewards (account (after open_position) alice)) /\
  rewards_after_sync T0 alice (after open_position)
    = Ok (UserAccount.accruedRewards (account (after open_position) alice)).
Proof.
  apply (rewards_view_matches_sync_when_idle T0 alice (after open_position)).
  right. vm_compute; reflexivity.
Defined.

(** ** Rounding of supply and withdraw *)

(** [floor((a + x * c) / c) = floor(a / c) + x] *)
Lemma div_add_mul a x c : c <> 0 -> (a + x * c) / c = a / c + x.
Proof. intros Hc. apply N.div_add. exact Hc. Qed.

(** X12. A supply of [X] raises [totalSupply] by exactly [X] and the scaled
    balance by [floor(X * 1e18 / exchangeRate)]; the account's real supply
    does not decrease and grows by at most [X]. *)
Theorem supply_credits_at_most_value (u : address) (X R : N) (s s' : State) :
  supplyNative_body u X s = Ok s' ->
  getSupplyBalance u s = Ok R ->
  totalSupply s' = totalSupply s + X /\
  UserAccount.supplyBalance (account s' u)
    = UserAccount.supplyBalance (account s u) + X * ONE_E18 / exchangeRate s /\
  forall R', getSupplyBalance u s' = Ok R' -> R <= R' /\ R' <= R + X.
Proof.
  unfold supplyNative_body, getSupplyBalance. intros H HR.
  apply bind_Ok in H. destruct H as (x0 & _ & H).
  apply bind_Ok in H. destruct H as (m & Hm & H).
  apply bind_Ok in H. destruct H as (sa & Hsa & H).
  apply bind_Ok in H. destruct H as (sb & Hsb & H).
  apply bind_Ok in H. destruct H as (ts & Hts & H).
  inversion H; subst s'; clear H.
  change (account (set_totalSupply ?t ?c) u) with (account c u).
  rewrite account_set_account_eq. simpl.
  arith_inv. subst m sa sb ts.
  split; [reflexivity|]. split; [reflexivity|].
  intros R' HR'. bind_inv HR. bind_inv HR'. arith_inv. subst.
  set (b := UserAccount.supplyBalance (account s u)) in *.
  set (er := exchangeRate s) in *.
  set (sa := X * ONE_E18 / er) in *.
  assert (Hsa : sa * er <= X * ONE_E18).
  { unfold sa. rewrite N.mul_comm. apply N.Div0.mul_div_le. }
  split.
  - apply N.Div0.div_le_mono. nia.
  - rewrite <- (div_add_mul (b * er) X ONE_E18 ONE_E18_neq_0).
    apply N.Div0.div_le_mono. nia.
Qed.

Lemma supply_credits_at_most_value_witness :
  totalSupply (after one_wei) = totalSupply (accrued (T0 + YEAR) (after open_position)) + 1.
Proof.
  refine (proj1 (supply_credits_at_most_value bob 1 0
            (match modifiers (T0 + YEAR) bob (receive_value 1 (after open_position))
             with Ok s => s | Err _ => init end) (after one_wei) _ _)).
  - vm_compute; reflexivity.
  - vm_compute; reflexivity.
Defined.

(** X13. A successful withdraw of [X] needs [0 < X <= realSupply], pays [X]
    out of the balance and lowers [totalSupply] by exactly [X], while the
    scaled balance drops by [floor(X * 1e18 / exchangeRate)]: the account's
    real supply drops by at most [X], possibly by less. *)
Theorem withdraw_debits_at_most_amount (u : address) (X R : N) (s s' : State) :
  withdraw_body u X s = Ok s' ->
  getSupplyBalance u s = Ok R ->
  X <> 0 /\ X <= R /\
  totalSupply s' = totalSupply s - X /\ X <= totalSupply s /\
  balance s' = balance s - X /\ X <= balance s /\
  UserAccount.supplyBalance (account s' u)
    = UserAccount.supplyBalance (account s u) - X * ONE_E18 / exchangeRate s /\
  exists R', getSupplyBalance u s' = Ok R' /\ R - X <= R' /\ R' <= R.
Proof.
  unfold withdraw_body, getSupplyBalance. intros H HR.
  apply bind_Ok in H. destruct H as (x0 & Hreq & H).
  apply bind_Ok in HR. destruct HR as (m & Hm & HR). rewrite Hm in H. cbn [bind] in H.
  rewrite HR in H. cbn [bind] in H.
  apply bind_Ok in H. destruct H as (x1 & Hge & H).
  apply bind_Ok in H. destruct H as (x2 & _ & H).
  apply bind_Ok in H. destruct H as (w & Hw & H).
  apply bind_Ok in H. destruct H as (wa & Hwa & H).
  apply bind_Ok in H. destruct H as (sb & Hsb & H).
  apply bind_Ok in H. destruct H as (ts & Hts & H).
  apply send_Ok in H. destruct H as [Hbal ->].
  change (account (set_balance ?b (set_totalSupply ?t ?c)) u) with (account c u).
  rewrite account_set_account_eq. simpl in *.
  apply require_Ok in Hreq. apply negb_true_iff in Hreq. apply N.eqb_neq in Hreq.
  apply require_Ok in Hge. apply negb_true_iff in Hge. apply N.ltb_ge in Hge.
  arith_inv. subst m R w wa sb ts.
  set (b := UserAccount.supplyBalance (account s u)) in *.
  set (er := exchangeRate s) in *.
  set (wa := X * ONE_E18 / er) in *.
  assert (Hwa : wa * er <= X * ONE_E18).
  { unfold wa. rewrite N.mul_comm. apply N.Div0.mul_div_le. }
  assert (Hfl : b * er / ONE_E18 * ONE_E18 <= b * er).
  { rewrite N.mul_comm. apply N.Div0.mul_div_le. }
  repeat split; auto.
  assert (Hmul : (b - wa) * er <= MAX_UINT256) by nia.
  rewrite mul_intro by exact Hmul. cbn [bind].
  rewrite div_intro by exact ONE_E18_neq_0.
  eexists. split; [reflexivity|]. split.
  - assert (Hsplit : b * er = (b * er - X * ONE_E18) + X * ONE_E18) by nia.
    assert (Hq : (b * er - X * ONE_E18) / ONE_E18 = b * er / ONE_E18 - X).
    { pose proof (div_add_mul (b * er - X * ONE_E18) X ONE_E18 ONE_E18_neq_0) as Hd.
      rewrite <- Hsplit in Hd. rewrite Hd. apply eq_sym, N.add_sub. }
    rewrite <- Hq. apply N.Div0.div_le_mono. nia.
  - apply N.Div0.div_le_mono. nia.
Qed.

Lemma withdraw_debits_at_most_amount_witness :
  exists R',
    getSupplyBalance alice
      (ok_or init (withdraw_body alice (200 * ONE_E18)
                     (accrued (T0 + YEAR) (after open_position)))) = Ok R' /\
    1020999999991830400000 - 200 * ONE_E18 <= R' /\ R' <= 1020999999991830400000.
Proof.
  refine (proj2 (proj2 (proj2 (proj2 (proj2 (proj2 (proj2
    (withdraw_debits_at_most_amount alice (200 * ONE_E18) 1020999999991830400000
       (accrued (T0 + YEAR) (after open_position))
       (ok_or init (withdraw_body alice (200 * ONE_E18)
                      (accrued (T0 + YEAR) (after open_position)))) _ _)))))))).
  - vm_compute; reflexivity.
  - vm_compute; reflexivity.
Defined.

(** X14. For an account with collateral disabled or no stored debt,
    [withdraw] has exactly these outcomes: [InsufficientBalance] above the
    real supply; the arithmetic panic when [totalSupply] is below the amount;
    "Native transfer failed" when the contract holds less than the amount or
    the caller refuses the payment; success otherwise. It never compares with
    [totalBorrow]. *)
Theorem withdraw_without_debt (u : address) (amount R : N) (s : State) :
  amount <> 0 ->
  UserAccount.collateralEnabled (account s u) = false \/
  UserAccount.borrowBalance (account s u) = 0 ->
  getSupplyBalance u s = Ok R ->
  (R < amount -> withdraw_body u amount s = Err InsufficientBalance) /\
  (amount <= R -> totalSupply s < amount ->
   withdraw_body u amount s = Err (Panic PANIC_ARITHMETIC)) /\
  (amount <= R -> amount <= totalSupply s ->
   balance s < amount \/ u ∈ refusing s ->
   withdraw_body u amount s = Err (RequireFailed "Native transfer failed")) /\
  (amount <= R -> amount <= totalSupply s ->
   amount <= balance s -> u ∉ refusing s ->
   isOk (withdraw_body u amount s) = true).
Proof.
  intros Hamt Hnd HS.
  unfold getSupplyBalance in HS.
  apply bind_Ok in HS. destruct HS as (m & Hm & HS).
  assert (Hbr : (UserAccount.collateralEnabled (account s u)
                 && (0 <? UserAccount.borrowBalance (account s u))) = false).
  { destruct Hnd as [-> | ->]; [reflexivity | apply andb_false_r]. }
  unfold withdraw_body.
  apply N.eqb_neq in Hamt. rewrite Hamt. cbn [bind require negb].
  rewrite Hm. cbn [bind]. rewrite HS. cbn [bind]. rewrite Hbr.
  apply mul_Ok in Hm. destruct Hm as [-> Hmov].
  apply div_Ok in HS. destruct HS as [-> _].
  set (sb := UserAccount.supplyBalance (account s u)) in *.
  set (er := exchangeRate s) in *.
  destruct (N.ltb_spec (sb * er / ONE_E18) amount) as [Hlt|Hge]; cbn [bind require negb].
  { split; [reflexivity|]. repeat split; intros; lia. }
  split; [intros; lia|].
  assert (Hscaled : amount * ONE_E18 <= sb * er).
  { pose proof (N.Div0.mul_div_le (sb * er) ONE_E18). nia. }
  assert (Her : er <> 0).
  { intros E. apply N.eqb_neq in Hamt. rewrite E, N.mul_0_r in Hge.
    rewrite N.Div0.div_0_l in Hge. lia. }
  assert (Hwa : amount * ONE_E18 / er <= sb).
  { rewrite <- (N.div_mul sb er Her). apply N.Div0.div_le_mono. exact Hscaled. }
  rewrite mul_intro by lia. cbn [bind].
  rewrite div_intro by exact Her. cbn [bind].
  rewrite sub_intro by exact Hwa. cbn [bind].
  split; [|split].
  - intros _ Hts. unfold sub.
    destruct (N.leb_spec amount (totalSupply s)); [lia | reflexivity].
  - intros _ Hts [Hbal|Href]; rewrite sub_intro by exact Hts; cbn [bind].
    + apply send_short. exact Hbal.
    + apply send_refused. exact Href.
  - intros _ Hts Hbal Hacc. rewrite sub_intro by exact Hts. cbn [bind].
    rewrite send_intro; [reflexivity | exact Hbal | exact Hacc].
Qed.

(** Bob, who never borrowed, takes back the [1e18] he supplied at [T0]. *)
Lemma withdraw_without_debt_witness :
  isOk (withdraw_body bob ONE_E18
          (after [ mkTx T0 alice (SupplyNative ONE_E18);
                   mkTx T0 bob (SupplyNative ONE_E18) ])) = true.
Proof.
  set (s := after [ mkTx T0 alice (SupplyNative ONE_E18);
                    mkTx T0 bob (SupplyNative ONE_E18) ]).
  destruct (withdraw_without_debt bob ONE_E18 ONE_E18 s) as (_ & _ & _ & Hok).
  - discriminate.
  - left. vm_compute; reflexivity.
  - vm_compute; reflexivity.
  - apply Hok.
    + apply N.le_refl.
    + vm_compute; discriminate.
    + vm_compute; discriminate.
    + assert (Href : refusing s = ∅) by (vm_compute; reflexivity).
      rewrite Href. apply not_elem_of_empty.
Defined.

(** ** Repaying and borrowing *)

(** X15. A repayment of at least the real debt clears it: the stored and real
    borrow are 0 afterwards, [totalBorrow] drops by the debt, the excess goes
    to [totalReserves], and collateral can then be disabled. *)
Theorem full_repay_clears_debt (u : address) (amount ubb : N) (s s' : State) :
  repay_body u amount s = Ok s' ->
  userBorrowBalance (account s u) s = Ok ubb ->
  ubb <= amount ->
  UserAccount.borrowBalance (account s' u) = 0 /\
  getBorrowBalance u s' = Ok 0 /\
  totalBorrow s' = totalBorrow s - ubb /\
  totalReserves s' = totalReserves s + (amount - ubb) /\
  isOk (setCollateralEnabled_body u false s') = true.
Proof.
  intros H Hu Hle.
  destruct (repay_body_effect u amount s s' ubb H Hu) as (_ & Htb & _ & Htr & Hbb & _).
  rewrite N.min_r in Htb, Htr, Hbb by exact Hle.
  rewrite N.sub_diag, N.mul_0_l, N.Div0.div_0_l in Hbb.
  split; [exact Hbb|]. split; [|split; [exact Htb | split; [exact Htr|]]].
  - unfold getBorrowBalance, userBorrowBalance. rewrite Hbb. reflexivity.
  - unfold setCollateralEnabled_body. rewrite Hbb. reflexivity.
Qed.

Lemma full_repay_clears_debt_witness :
  getBorrowBalance alice
    (ok_or init (repay_body alice (600 * ONE_E18)
                   (ok_or init (modifiers (T0 + YEAR) alice
                                  (receive_value (600 * ONE_E18) (after open_position))))))
  = Ok 0.
Proof.
  refine (proj1 (proj2 (full_repay_clears_debt alice (600 * ONE_E18) 534999999986384000000
    (ok_or init (modifiers (T0 + YEAR) alice
                   (receive_value (600 * ONE_E18) (after open_position))))
    (ok_or init (repay_body alice (600 * ONE_E18)
                   (ok_or init (modifiers (T0 + YEAR) alice
                                  (receive_value (600 * ONE_E18) (after open_position))))))
    _ _ _))).
  - vm_compute; reflexivity.
  - vm_compute; reflexivity.
  - vm_compute; discriminate.
Defined.

(** X16. [borrow] against the view [getAvailableToBorrow]: a successful borrow
    is within the available amount; with collateral disabled the view is 0
    and borrow fails with [CollateralDisabled]; above the available amount it
    fails with [ExceedsBorrowCapacity]; within it but above the pool's
    [totalSupply - totalBorrow] it fails with [InsufficientLiquidity]. *)
Theorem borrow_within_available (u : address) (amount av B : N) (s : State) :
  amount <> 0 ->
  getAvailableToBorrow u s = Ok av ->
  getBorrowBalance u s = Ok B ->
  (isOk (borrow_body u amount s) = true -> amount <= av) /\
  (UserAccount.collateralEnabled (account s u) = false ->
   av = 0 /\ borrow_body u amount s = Err CollateralDisabled) /\
  (UserAccount.collateralEnabled (account s u) = true ->
   av < amount -> B + amount <= MAX_UINT256 ->
   borrow_body u amount s = Err ExceedsBorrowCapacity) /\
  (UserAccount.collateralEnabled (account s u) = true ->
   amount <= av -> totalBorrow s + amount <= MAX_UINT256 ->
   totalSupply s < totalBorrow s + amount ->
   borrow_body u amount s = Err InsufficientLiquidity).
Proof.
  intros Hamt Hav HB. unfold getAvailableToBorrow in Hav. unfold getBorrowBalance in HB.
  unfold borrow_body.
  apply N.eqb_neq in Hamt. rewrite Hamt. cbn [negb require bind].
  destruct (UserAccount.collateralEnabled (account s u)) eqn:Hce; cbn [negb require bind] in *.
  - apply bind_Ok in Hav. destruct Hav as (m & Hm & Hav).
    apply bind_Ok in Hav. destruct Hav as (S & HS & Hav).
    apply bind_Ok in Hav. destruct Hav as (c & Hc & Hav).
    apply bind_Ok in Hav. destruct Hav as (mb & Hmb & Hav).
    rewrite HB in Hav. cbn [bind] in Hav.
    rewrite Hm. cbn [bind]. rewrite HS. cbn [bind]. rewrite Hc. cbn [bind].
    rewrite Hmb. cbn [bind]. rewrite HB. cbn [bind].
    assert (Hav' : av = mb - B).
    { destruct (N.ltb_spec B mb).
      - apply sub_Ok in Hav. tauto.
      - inversion Hav. lia. }
    split; [|split; [discriminate|split]].
    + intros Hok.
      destruct (add B amount) as [want|e] eqn:Hadd; [|discriminate]. cbn [bind] in Hok.
      apply add_Ok in Hadd. destruct Hadd as [-> _].
      destruct (N.ltb_spec mb (B + amount)); cbn [negb require bind] in Hok;
        [discriminate | lia].
    + intros _ Hlt Hov. rewrite add_intro by exact Hov. cbn [bind].
      assert (Hx : (mb <? B + amount) = true) by (apply N.ltb_lt; lia).
      rewrite Hx. reflexivity.
    + intros _ Hle Hov Hliq.
      assert (Hmb' : B + amount <= mb).
      { destruct (N.ltb_spec B mb); [lia|].
        assert (av = 0) by lia. assert (amount = 0) by lia.
        apply N.eqb_neq in Hamt. contradiction. }
      assert (HmbR : mb <= MAX_UINT256).
      { apply div_Ok in Hmb. destruct Hmb as [-> _]. apply mul_Ok in Hc.
        destruct Hc as [-> Hc]. etransitivity; [|exact Hc].
        apply N.Div0.div_le_upper_bound. nia. }
      rewrite add_intro by lia. cbn [bind].
      assert (Hx : (mb <? B + amount) = false) by (apply N.ltb_ge; lia).
      rewrite Hx. cbn [negb require bind].
      rewrite add_intro by exact Hov. cbn [bind].
      assert (Hy : (totalSupply s <? totalBorrow s + amount) = true) by (apply N.ltb_lt; lia).
      rewrite Hy. reflexivity.
  - inversion Hav; subst av. split; [discriminate|].
    split; [auto | split; discriminate].
Qed.

Lemma borrow_within_available_witness :
  borrow_body alice 1 (after (open_position ++ [mkTx T0 alice (Borrow (200 * ONE_E18))]))
  = Err ExceedsBorrowCapacity.
Proof.
  refine (proj1 (proj2 (proj2 (borrow_within_available alice 1 0 (700 * ONE_E18)
    (after (open_position ++ [mkTx T0 alice (Borrow (200 * ONE_E18))])) _ _ _))) _ _ _).
  - discriminate.
  - vm_compute; reflexivity.
  - vm_compute; reflexivity.
  - vm_compute; reflexivity.
  - vm_compute; reflexivity.
  - vm_compute; discriminate.
Defined.

(** ** Liquidation and rewards *)

(** X17. A successful liquidation happens only below health factor [1e18],
    on a positive debt, by another account. It repays
    [min(value, debt)], seizes that plus 5/10000 of it (within the borrower's
    real supply), lowers [totalBorrow] and [totalSupply] by these amounts and
    leaves [totalReserves] alone: of the value sent, the contract keeps
    whatever exceeds the seized amount. *)
Theorem liquidation_settlement
    (now : N) (liquidator borrower : address) (value : N) (s s1 s' : State) :
  _accrueInterest K now (receive_value value s) = Ok s1 ->
  liquidate now liquidator borrower value s = Ok s' ->
  exists S B h,
    getSupplyBalance borrower s1 = Ok S /\
    getBorrowBalance borrower s1 = Ok B /\
    _calculateHealthFactor K S B = Ok h /\ h < ONE_E18 /\ 0 < B /\
    value <> 0 /\ borrower <> liquidator /\
    UserAccount.collateralEnabled (account s1 borrower) = true /\
    let repaid := N.min value B in
    let seized := repaid + repaid * 5 / 10000 in
    seized <= S /\
    totalBorrow s' = totalBorrow s1 - repaid /\
    totalSupply s' = totalSupply s1 - seized /\
    totalReserves s' = totalReserves s1 /\
    balance s' + seized = balance s + value /\
    UserAccount.borrowBalance (account s' borrower)
      = (B - repaid) * ONE_E18 / borrowIndex s1 /\
    UserAccount.supplyBalance (account s' borrower)
      = UserAccount.supplyBalance (account s1 borrower)
        - seized * ONE_E18 / exchangeRate s1.
Proof.
  intros Hacc H. unfold liquidate in H. rewrite Hacc in H. cbn [bind] in H.
  pose proof (_accrueInterest_accounts K _ _ _ Hacc) as (_ & _ & _ & Hbal & _).
  simpl in Hbal.
  unfold liquidate_body in H.
  apply bind_Ok in H. destruct H as (x0 & Hv & H).
  apply bind_Ok in H. destruct H as (x1 & Hne & H).
  apply bind_Ok in H. destruct H as (x2 & Hce & H).
  apply bind_Ok in H. destruct H as (m & Hm & H).
  apply bind_Ok in H. destruct H as (S & HS & H).
  apply bind_Ok in H. destruct H as (b & Hb & H).
  apply bind_Ok in H. destruct H as (B & HB & H).
  apply bind_Ok in H. destruct H as (h & Hh & H).
  apply bind_Ok in H. destruct H as (x3 & Hgate & H).
  assert (Hmin : (if B <? value then B else value) = N.min value B).
  { destruct (N.ltb_spec B value); [rewrite N.min_r | rewrite N.min_l]; lia. }
  rewrite Hmin in H.
  apply bind_Ok in H. destruct H as (lb & Hlb & H).
  apply bind_Ok in H. destruct H as (bonus & Hbonus & H).
  apply bind_Ok in H. destruct H as (seize & Hseize & H).
  apply bind_Ok in H. destruct H as (x4 & Hcol & H).
  apply bind_Ok in H. destruct H as (rest & Hrest & H).
  apply bind_Ok in H. destruct H as (r & Hr & H).
  apply bind_Ok in H. destruct H as (bb & Hbb & H).
  apply bind_Ok in H. destruct H as (z & Hz & H).
  apply bind_Ok in H. destruct H as (zs & Hzs & H).
  apply bind_Ok in H. destruct H as (sb & Hsb & H).
  apply bind_Ok in H. destruct H as (tb & Htb & H).
  apply bind_Ok in H. destruct H as (ts & Hts & H).
  apply send_Ok in H. destruct H as [Hsend ->].
  apply require_Ok in Hv. apply negb_true_iff in Hv. apply N.eqb_neq in Hv.
  apply require_Ok in Hne. apply negb_true_iff in Hne. apply N.eqb_neq in Hne.
  apply require_Ok in Hce. apply require_Ok in Hgate. apply N.ltb_lt in Hgate.
  apply require_Ok in Hcol. apply N.leb_le in Hcol.
  assert (HBpos : 0 < B).
  { destruct (N.eq_dec B 0) as [E|E]; [|lia]. subst B.
    unfold _calculateHealthFactor in Hh. simpl in Hh. inversion Hh; subst h.
    vm_compute in Hgate. discriminate. }
  exists S, B, h.
  split; [unfold getSupplyBalance; rewrite Hm; cbn [bind]; exact HS|].
  split.
  { unfold getBorrowBalance, userBorrowBalance, borrowIdx.
    destruct (N.eqb_spec (UserAccount.borrowBalance (account s1 borrower)) 0) as [E|E].
    - rewrite E in Hb. rewrite mul_0_l_Ok in Hb. inversion Hb; subst b.
      apply div_Ok in HB. destruct HB as [HB _]. rewrite N.Div0.div_0_l in HB. lia.
    - rewrite Hb. cbn [bind].
      pose proof (div_Ok _ _ _ HB) as [_ Hidx]. apply N.eqb_neq in Hidx. rewrite Hidx.
      exact HB. }
  change (account (set_balance ?x (set_totalSupply ?t (set_totalBorrow ?y ?c))) borrower)
    with (account c borrower).
  rewrite account_set_account_eq. simpl in *.
  change (LIQUIDATION_BONUS K) with 5 in Hlb.
  arith_inv. subst lb bonus seize rest r bb z zs sb tb ts.
  repeat split; auto. lia.
Qed.

Lemma liquidation_settlement_witness :
  exists S B h,
    getSupplyBalance alice (accrued (T0 + 8 * YEAR) (receive_value 1 (after tiny_loan))) = Ok S /\
    getBorrowBalance alice (accrued (T0 + 8 * YEAR) (receive_value 1 (after tiny_loan))) = Ok B /\
    _calculateHealthFactor K S B = Ok h /\ h < ONE_E18 /\ 0 < B.
Proof.
  destruct (liquidation_settlement (T0 + 8 * YEAR) bob alice 1 (after tiny_loan)
              (accrued (T0 + 8 * YEAR) (receive_value 1 (after tiny_loan)))
              (ok_or init (liquidate (T0 + 8 * YEAR) bob alice 1 (after tiny_loan))))
    as (S & B & h & H1 & H2 & H3 & H4 & H5 & _).
  - vm_compute; reflexivity.
  - vm_compute; reflexivity.
  - exists S, B, h. auto.
Defined.

(** ** Accrued rewards only grow *)

Lemma _updateUserRewards_grows (K0 : Constants) now u s s' :
  _updateUserRewards K0 now u s = Ok s' ->
  UserAccount.accruedRewards (account s u) <= UserAccount.accruedRewards (account s' u).
Proof.
  unfold _updateUserRewards. intros H.
  destruct (UserAccount.supplyBalance (account s u) =? 0).
  - inversion H; subst. rewrite account_set_account_eq. simpl. lia.
  - apply bind_Ok in H. destruct H as (te & _ & H).
    destruct (te =? 0).
    + inversion H; subst. lia.
    + bind_inv H. inversion H; subst. rewrite account_set_account_eq. simpl.
      arith_inv. lia.
Qed.

Lemma _accrueInterest_account (K0 : Constants) now s s' a :
  _accrueInterest K0 now s = Ok s' -> account s' a = account s a.
Proof.
  intros H. apply _accrueInterest_accounts in H. destruct H as (Ha & _).
  unfold account. rewrite Ha. reflexivity.
Qed.

Lemma modifiers_rewards_grow now u s s' :
  modifiers now u s = Ok s' ->
  UserAccount.accruedRewards (account s u) <= UserAccount.accruedRewards (account s' u).
Proof.
  unfold modifiers. intros H. bind_inv H.
  rewrite <- (_accrueInterest_account K now s x u E).
  eapply _updateUserRewards_grows; exact H.
Qed.

(** Each body but that of [claimRewards] leaves the accrued rewards of the
    account it writes. *)
Ltac keeps_rewards :=
  repeat match goal with
  | |- context [account (set_balance ?b ?c) ?u] =>
      change (account (set_balance b c) u) with (account c u)
  | |- context [account (set_totalSupply ?b ?c) ?u] =>
      change (account (set_totalSupply b c) u) with (account c u)
  | |- context [account (set_totalBorrow ?b ?c) ?u] =>
      change (account (set_totalBorrow b c) u) with (account c u)
  | |- context [account (set_totalReserves ?b ?c) ?u] =>
      change (account (set_totalReserves b c) u) with (account c u)
  end;
  rewrite account_set_account_eq; reflexivity.

Lemma supplyNative_body_rewards u v s s' :
  supplyNative_body u v s = Ok s' ->
  UserAccount.accruedRewards (account s' u) = UserAccount.accruedRewards (account s u).
Proof.
  unfold supplyNative_body. intros H. bind_inv H. inversion H; subst. keeps_rewards.
Qed.

Lemma withdraw_body_rewards u v s s' :
  withdraw_body u v s = Ok s' ->
  UserAccount.accruedRewards (account s' u) = UserAccount.accruedRewards (account s u).
Proof.
  unfold withdraw_body. intros H. bind_inv H.
  apply send_Ok in H. destruct H as [_ ->]. keeps_rewards.
Qed.

Lemma borrow_body_rewards u v s s' :
  borrow_body u v s = Ok s' ->
  UserAccount.accruedRewards (account s' u) = UserAccount.accruedRewards (account s u).
Proof.
  unfold borrow_body. intros H. bind_inv H.
  apply send_Ok in H. destruct H as [_ ->]. keeps_rewards.
Qed.

Lemma repay_body_rewards u v s s' :
  repay_body u v s = Ok s' ->
  UserAccount.accruedRewards (account s' u) = UserAccount.accruedRewards (account s u).
Proof.
  unfold repay_body. intros H. bind_inv H.
  destruct (_ <? v) in H.
  - bind_inv H. inversion H; subst. keeps_rewards.
  - inversion H; subst. keeps_rewards.
Qed.

Lemma setCollateralEnabled_body_rewards u en s s' :
  setCollateralEnabled_body u en s = Ok s' ->
  UserAccount.accruedRewards (account s' u) = UserAccount.accruedRewards (account s u).
Proof.
  unfold setCollateralEnabled_body. intros H. bind_inv H.
  inversion H; subst. keeps_rewards.
Qed.

Lemma liquidate_body_rewards u b v s s' :
  liquidate_body u b v s = Ok s' ->
  UserAccount.accruedRewards (account s' b) = UserAccount.accruedRewards (account s b).
Proof.
  unfold liquidate_body. intros H. bind_inv H.
  apply send_Ok in H. destruct H as [_ ->]. keeps_rewards.
Qed.

(** X18. A successful transaction never lowers the accrued rewards of an
    account, except that account's own [claimRewards]. *)
Theorem rewards_only_grow (t : tx) (s s' : State) (a : address) :
  execute t s = Ok s' ->
  (action t = ClaimRewards -> sender t <> a) ->
  UserAccount.accruedRewards (account s a) <= UserAccount.accruedRewards (account s' a).
Proof.
  intros Hx Hclaim.
  destruct (N.eq_dec a (affected t)) as [Ha|Ha].
  2:{ apply execute_step in Hx. destruct Hx as (_ & _ & _ & _ & H).
      rewrite (H a Ha). lia. }
  subst a. unfold execute in Hx. unfold affected in *.
  destruct (action t) as [v|v|v|v|en| |b v|v].
  - unfold supplyNative in Hx. bind_inv Hx.
    rewrite (supplyNative_body_rewards _ _ _ _ Hx).
    apply (modifiers_rewards_grow _ _ _ _ E).
  - unfold withdraw in Hx. bind_inv Hx.
    rewrite (withdraw_body_rewards _ _ _ _ Hx).
    apply (modifiers_rewards_grow _ _ _ _ E).
  - unfold borrow in Hx. bind_inv Hx.
    rewrite (borrow_body_rewards _ _ _ _ Hx).
    apply (modifiers_rewards_grow _ _ _ _ E).
  - unfold repay in Hx. bind_inv Hx.
    rewrite (repay_body_rewards _ _ _ _ Hx).
    apply (modifiers_rewards_grow _ _ _ _ E).
  - unfold setCollateralEnabled in Hx. bind_inv Hx.
    rewrite (setCollateralEnabled_body_rewards _ _ _ _ Hx).
    apply (modifiers_rewards_grow _ _ _ _ E).
  - exfalso. exact (Hclaim eq_refl eq_refl).
  - unfold liquidate in Hx. bind_inv Hx.
    rewrite (liquidate_body_rewards _ _ _ _ _ Hx).
    rewrite (_accrueInterest_account K _ _ _ b E). apply N.le_refl.
  - inversion Hx; subst. apply N.le_refl.
Qed.

Lemma rewards_only_grow_witness :
  UserAccount.accruedRewards (account (after open_position) alice)
  <= UserAccount.accruedRewards (account (after borrow_more) alice).
Proof.
  apply (rewards_only_grow (mkTx (T0 + YEAR) alice (Borrow (10 * ONE_E18)))
           (after open_position) (after borrow_more) alice).
  - vm_compute; reflexivity.
  - discriminate.
Defined.

(** ** The points calculator *)

Lemma wrap_small x : x <= MAX_UINT256 -> PointsCalculator.wrap x = x.
Proof.
  intros H. unfold PointsCalculator.wrap. apply N.mod_small.
  rewrite MAX_UINT256_value in H.
  change (2 ^ 256) with 115792089237316195423570985008687907853269984665640564039457584007913129639936.
  lia.
Qed.

Lemma wrap_le x : PointsCalculator.wrap x <= MAX_UINT256.
Proof.
  unfold PointsCalculator.wrap.
  assert (H : x mod 2 ^ 256 < 2 ^ 256) by (apply N.mod_lt; discriminate).
  rewrite MAX_UINT256_value.
  change (2 ^ 256) with 115792089237316195423570985008687907853269984665640564039457584007913129639936 in *.
  lia.
Qed.

(** X20. While the weighted products fit in [uint256], the points are
    [supplied + 2 * borrowed]. *)
Theorem points_weighted_sum (supplied borrowed : N) :
  supplied * ONE_E18 <= MAX_UINT256 ->
  borrowed * (2 * ONE_E18) <= MAX_UINT256 ->
  PointsCalculator.calculatePoints supplied borrowed = supplied + 2 * borrowed.
Proof.
  intros Hs Hb. unfold PointsCalculator.calculatePoints,
    PointsCalculator.SUPPLY_WEIGHT, PointsCalculator.BORROW_WEIGHT.
  rewrite (wrap_small _ Hs), (wrap_small _ Hb).
  rewrite N.div_mul by exact ONE_E18_neq_0.
  rewrite N.mul_assoc, N.div_mul by exact ONE_E18_neq_0.
  rewrite (N.mul_comm borrowed 2).
  apply wrap_small.
  rewrite MAX_UINT256_value in *. unfold ONE_E18 in *. lia.
Qed.

Lemma points_weighted_sum_witness :
  PointsCalculator.calculatePoints (1000 * ONE_E18) (700 * ONE_E18) = 2400 * ONE_E18.
Proof.
  apply (points_weighted_sum (1000 * ONE_E18) (700 * ONE_E18)); vm_compute; discriminate.
Defined.

(** X21. Whatever the amounts, the points are at most
    [2 * floor((2^256 - 1) / 1e18)]: the products wrap, the final sum does
    not. *)
Theorem points_bounded (supplied borrowed : N) :
  PointsCalculator.calculatePoints supplied borrowed <= 2 * (MAX_UINT256 / ONE_E18) /\
  PointsCalculator.calculatePoints supplied borrowed
  = PointsCalculator.wrap (supplied * ONE_E18) / ONE_E18
    + PointsCalculator.wrap (borrowed * (2 * ONE_E18)) / ONE_E18.
Proof.
  unfold PointsCalculator.calculatePoints,
    PointsCalculator.SUPPLY_WEIGHT, PointsCalculator.BORROW_WEIGHT.
  pose proof (wrap_le (supplied * ONE_E18)) as Hs.
  pose proof (wrap_le (borrowed * (2 * ONE_E18))) as Hb.
  assert (Hs' : PointsCalculator.wrap (supplied * ONE_E18) / ONE_E18
                <= MAX_UINT256 / ONE_E18) by (apply N.Div0.div_le_mono; exact Hs).
  assert (Hb' : PointsCalculator.wrap (borrowed * (2 * ONE_E18)) / ONE_E18
                <= MAX_UINT256 / ONE_E18) by (apply N.Div0.div_le_mono; exact Hb).
  assert (Hq : MAX_UINT256 / ONE_E18
               = 115792089237316195423570985008687907853269984665640564039457) by (vm_compute; reflexivity).
  rewrite Hq in *.
  set (a := PointsCalculator.wrap (supplied * ONE_E18) / ONE_E18) in *.
  set (b := PointsCalculator.wrap (borrowed * (2 * ONE_E18)) / ONE_E18) in *.
  clearbody a b.
  rewrite wrap_small by (rewrite MAX_UINT256_value; lia).
  split; [lia | reflexivity].
Qed.

(** Past the range the product wraps: a larger supply can earn fewer points. *)
Example points_wrap :
  PointsCalculator.calculatePoints (2 ^ 197) 0 < PointsCalculator.calculatePoints (2 ^ 196) 0.
Proof. vm_compute; reflexivity. Qed.

